(** * MBTiles builder and tile server: a shallow embedding

    The development follows the two scripts of the repository:

    - [Flutter/xyz_to_mbtiles.py] packs a [z/x/y.ext] folder hierarchy into
      an MBTiles container (module [Builder]);
    - [mbtiles_server.py] answers tile and metadata requests from such a
      container over HTTP (module [Server]).

    Python integers are unbounded and are modelled by [Z]; text is a list of
    ASCII characters; file contents and blobs are lists of bytes.  Exceptions
    are explicit: a computation that may raise returns a [result].  The
    file system is a finite table from paths to entries, threaded through
    every function that touches it. *)

From Stdlib Require Import ZArith List Ascii String Bool Lia Sorted.
Import ListNotations.
Local Open Scope Z_scope.

(** ** Text and bytes *)

Definition str := list ascii.
Definition bytes := list Byte.byte.

(** A literal of the source, written as a Rocq string. *)
Definition lit (s : string) : str := list_ascii_of_string s.

Module Py.

(** *** Exceptions

    The exception classes that the modelled code can meet.  All of them are
    subclasses of [Exception]; only [ValueError] is caught by name. *)
Inductive exn :=
| ValueError
| OverflowError
| OperationalError
| DatabaseError
| IsADirectoryError.

Inductive result (A : Type) :=
| Ok (a : A)
| Raise (e : exn).
Arguments Ok {A} a.
Arguments Raise {A} e.

Definition bind {A B} (m : result A) (k : A -> result B) : result B :=
  match m with
  | Ok a => k a
  | Raise e => Raise e
  end.

Notation "x <- m ;; k" := (bind m (fun x => k))
  (at level 61, m at next level, right associativity).

(** A [for] loop whose body may raise: the first exception leaves the loop. *)
Fixpoint for_each {A S} (body : A -> S -> result S) (l : list A) (s : S)
  : result S :=
  match l with
  | [] => Ok s
  | a :: r => s' <- body a s ;; for_each body r s'
  end.

(** *** Characters and strings *)

Definition is_digit (c : ascii) : bool :=
  let n := N.of_nat (nat_of_ascii c) in
  (48 <=? n)%N && (n <=? 57)%N.

Definition digit_val (c : ascii) : Z := Z.of_nat (nat_of_ascii c) - 48.

Definition digit_char (d : Z) : ascii := ascii_of_nat (Z.to_nat (d + 48)).

(** [str.isdigit()], on ASCII text: non-empty and made of [0]..[9]. *)
Definition isdigit (s : str) : bool :=
  match s with
  | [] => false
  | _ => forallb is_digit s
  end.

Fixpoint str_eqb (a b : str) : bool :=
  match a, b with
  | [], [] => true
  | x :: a', y :: b' => Ascii.eqb x y && str_eqb a' b'
  | _, _ => false
  end.

(** [s.endswith(suffix)] *)
Definition endswith (s suffix : str) : bool :=
  (List.length suffix <=? List.length s)%nat
  && str_eqb (skipn (List.length s - List.length suffix) s) suffix.

(** [s.endswith((a, b, ...))] *)
Definition endswith_any (s : str) (suffixes : list str) : bool :=
  existsb (endswith s) suffixes.

Fixpoint lstrip (c : ascii) (s : str) : str :=
  match s with
  | [] => []
  | a :: r => if Ascii.eqb a c then lstrip c r else s
  end.

Definition rstrip (c : ascii) (s : str) : str := rev (lstrip c (rev s)).

(** [s.strip(c)] for a one-character argument *)
Definition strip (c : ascii) (s : str) : str := rstrip c (lstrip c s).

(** [s.split(sep)] for a one-character separator: never the empty list. *)
Fixpoint split (sep : ascii) (s : str) : list str :=
  match s with
  | [] => [[]]
  | a :: r =>
      if Ascii.eqb a sep then [] :: split sep r
      else match split sep r with
           | h :: t => (a :: h) :: t
           | [] => [[a]]
           end
  end.

(** [s.lower()], on ASCII text *)
Definition lower_char (c : ascii) : ascii :=
  let n := nat_of_ascii c in
  if ((65 <=? n) && (n <=? 90))%nat then ascii_of_nat (n + 32) else c.

Definition lower (s : str) : str := map lower_char s.

(** [os.path.basename(p)]: what follows the last slash. *)
Definition basename (p : str) : str := last (split "/"%char p) [].

(** [os.path.splitext(name)] for a name without a slash: the extension
    starts at the last dot, unless only dots come before it. *)
Fixpoint rfind_dot (s : str) (i : nat) (found : option nat) : option nat :=
  match s with
  | [] => found
  | a :: r =>
      rfind_dot r (S i) (if Ascii.eqb a "."%char then Some i else found)
  end.

Definition splitext (p : str) : str * str :=
  match rfind_dot p 0 None with
  | None => (p, [])
  | Some dot =>
      if forallb (fun a => Ascii.eqb a "."%char) (firstn dot p)
      then (p, [])
      else (firstn dot p, skipn dot p)
  end.

(** *** Integers *)

(** The blanks [int()] skips around an ASCII literal: the codes 9 to 13
    and the space. *)
Definition is_space (c : ascii) : bool :=
  let n := nat_of_ascii c in
  ((9 <=? n) && (n <=? 13) || (n =? 32))%nat.

Fixpoint lstrip_space (s : str) : str :=
  match s with
  | [] => []
  | a :: r => if is_space a then lstrip_space r else s
  end.

Definition strip_space (s : str) : str :=
  rev (lstrip_space (rev (lstrip_space s))).

(** The digits of a decimal literal: single underscores are allowed
    between two digits, nowhere else. *)
Fixpoint digits_value (after_digit : bool) (acc : Z) (s : str) : option Z :=
  match s with
  | [] => if after_digit then Some acc else None
  | c :: r =>
      if is_digit c then digits_value true (10 * acc + digit_val c) r
      else if Ascii.eqb c "_"%char && after_digit then digits_value false acc r
      else None
  end.

(** [int(s)] for a string, base ten: surrounding blanks, an optional sign,
    then the digits.  [None] stands for [ValueError].  The interpreter
    also refuses a literal of more than 4300 digits
    ([sys.int_info.default_max_str_digits]); the names of directory entries
    are far shorter, and the statements about requests that depend on the
    parse carry that bound as a hypothesis ([within_digit_limit]). *)
Definition int_of_str (s : str) : option Z :=
  match strip_space s with
  | "-"%char :: r => option_map Z.opp (digits_value false 0 r)
  | "+"%char :: r => digits_value false 0 r
  | r => digits_value false 0 r
  end.

Definition int (s : str) : result Z :=
  match int_of_str s with
  | Some v => Ok v
  | None => Raise ValueError
  end.

(** [str(n)] for an integer: its decimal digits, least significant first,
    then reversed; a minus sign in front of a negative number. *)
Fixpoint lsd_digits (fuel : nat) (n : Z) : str :=
  match fuel with
  | O => []
  | S f =>
      digit_char (n mod 10) :: (if n <? 10 then [] else lsd_digits f (n / 10))
  end.

Definition str_of_nonneg (n : Z) : str :=
  rev (lsd_digits (S (Z.to_nat (Z.log2 n))) n).

Definition str_of_int (n : Z) : str :=
  if n <? 0 then "-"%char :: str_of_nonneg (- n) else str_of_nonneg n.

(** [1 << z]: a negative shift count raises [ValueError]. *)
Definition shl1 (z : Z) : result Z :=
  if z <? 0 then Raise ValueError else Ok (Z.shiftl 1 z).

(** [sorted(l, key=key)]: a stable sort, here by insertion. *)
Fixpoint insert_sorted {A} (key : A -> Z) (a : A) (l : list A) : list A :=
  match l with
  | [] => [a]
  | b :: r => if key a <=? key b then a :: l else b :: insert_sorted key a r
  end.

Definition sorted {A} (key : A -> Z) (l : list A) : list A :=
  fold_right (insert_sorted key) [] l.

End Py.

Import Py.

(** ** The file system

    A [node] is what a path of the source tree leads to.  [os.listdir] is
    modelled by the entries of a folder, in the order the system returns
    them, each name paired with the node found under it. *)

#[local] Set Warnings "-register-all".

Inductive node :=
| File (content : bytes)
| Folder (entries : list (str * node)).

Definition os_path_isdir_node (n : node) : bool :=
  match n with
  | Folder _ => true
  | File _ => false
  end.

Definition os_listdir (n : node) : list (str * node) :=
  match n with
  | Folder es => es
  | File _ => []
  end.

(** [open(path, "rb").read()] *)
Definition open_rb (n : node) : result bytes :=
  match n with
  | File b => Ok b
  | Folder _ => Raise IsADirectoryError
  end.

(** ** The container

    The two relations of the schema.  [tiles] is kept as the list of its
    rows, oldest first, so that the uniqueness of the index is something to
    prove and not a property of the representation.  A relation that was
    never created is [None]. *)

Module Sqlite.

Record tile := {
  zoom_level : Z;
  tile_column : Z;
  tile_row : Z;
  tile_data : bytes
}.

Record database := {
  metadata : option (list (str * str));
  tiles : option (list tile)
}.

Definition empty_database : database :=
  {| metadata := None; tiles := None |}.

(** An SQLite INTEGER is a signed 64-bit number; the binding raises
    [OverflowError] for a Python integer outside that range. *)
Definition int64 (v : Z) : bool :=
  (- 2 ^ 63 <=? v) && (v <? 2 ^ 63).

(** The columns of [tile_index] *)
Definition same_key (z x y : Z) (t : tile) : bool :=
  (zoom_level t =? z) && (tile_column t =? x) && (tile_row t =? y).

Definition key_of (t : tile) : Z * Z * Z :=
  (zoom_level t, tile_column t, tile_row t).

(** [INSERT OR REPLACE INTO tiles VALUES (?,?,?,?)]: the rows that clash
    with the new one on [tile_index] are deleted, then the row is added. *)
Definition insert_or_replace (t : tile) (table : list tile)
  : result (list tile) :=
  if int64 (zoom_level t) && int64 (tile_column t) && int64 (tile_row t)
  then Ok (filter (fun r => negb (same_key (zoom_level t) (tile_column t)
                                           (tile_row t) r)) table ++ [t])
  else Raise OverflowError.

(** [SELECT tile_data FROM tiles WHERE zoom_level=? AND tile_column=? AND
    tile_row=?] followed by [fetchone()]. *)
Definition select_tile_data (table : list tile) (z x y : Z)
  : result (option bytes) :=
  if int64 z && int64 x && int64 y
  then Ok (option_map tile_data (find (same_key z x y) table))
  else Raise OverflowError.

End Sqlite.
Import Sqlite.

(** ** The world: what the paths given to the programs lead to *)

Inductive entry :=
| Plain (n : node)
| Store (d : database).

Definition world := list (str * entry).

Fixpoint lookup (w : world) (p : str) : option entry :=
  match w with
  | [] => None
  | (q, e) :: r => if str_eqb q p then Some e else lookup r p
  end.

Definition remove (w : world) (p : str) : world :=
  filter (fun qe => negb (str_eqb (fst qe) p)) w.

Definition write (w : world) (p : str) (e : entry) : world :=
  (p, e) :: remove w p.

Definition os_path_isdir (w : world) (p : str) : bool :=
  match lookup w p with
  | Some (Plain n) => os_path_isdir_node n
  | _ => false
  end.

Definition os_path_exists (w : world) (p : str) : bool :=
  match lookup w p with
  | Some _ => true
  | None => false
  end.

(** [os.remove(p)] of an existing path: a folder cannot be removed. *)
Definition os_remove (w : world) (p : str) : result world :=
  match lookup w p with
  | Some (Plain (Folder _)) => Raise IsADirectoryError
  | _ => Ok (remove w p)
  end.

(** What [os.listdir(src)] returns for the source folder of a run *)
Definition source_entries (w : world) (src : str) : list (str * node) :=
  match lookup w src with
  | Some (Plain n) => os_listdir n
  | _ => []
  end.

(** The container a path leads to, if it is one. *)
Definition container_at (w : world) (p : str) : option database :=
  match lookup w p with
  | Some (Store d) => Some d
  | _ => None
  end.

(** ** The builder: [Flutter/xyz_to_mbtiles.py] *)

Module Builder.

(** The variables of the walk: the [tiles] relation behind the cursor, and
    [count], [z_min], [z_max].  [db.commit()] every 5000 tiles and the
    progress messages leave all four unchanged. *)
Record state := {
  table : list tile;
  count : Z;
  z_min : Z;
  z_max : Z
}.

Definition initial_state : state :=
  {| table := []; count := 0; z_min := 99; z_max := -1 |}.

(** The key of [sorted(os.listdir(src), key=...)], line 25 *)
Definition zoom_key (item : str * node) : Z :=
  let s := fst item in
  if isdigit s then
    match int_of_str s with
    | Some v => v
    | None => 999
    end
  else 999.

(** [y_tms = (1 << z) - 1 - y_xyz], the flip from XYZ to TMS rows
    (line 46) *)
Definition y_tms (z y_xyz : Z) : result Z :=
  p <- shl1 z ;;
  Ok (p - 1 - y_xyz).

(** The body of [for y_file in os.listdir(x_dir)], lines 39 to 54 *)
Definition y_body (z x : Z) (item : str * node) (st : state) : result state :=
  let (y_file, f) := item in
  if negb (endswith y_file (lit ".png") || endswith y_file (lit ".jpg")
           || endswith y_file (lit ".jpeg"))
  then Ok st
  else
    let y_name := fst (splitext y_file) in
    if negb (isdigit y_name) then Ok st
    else
      y_xyz <- int y_name ;;
      row <- y_tms z y_xyz ;;
      blob <- open_rb f ;;
      tbl <- insert_or_replace
               {| zoom_level := z; tile_column := x; tile_row := row;
                  tile_data := blob |} (table st) ;;
      Ok {| table := tbl; count := count st + 1;
            z_min := z_min st; z_max := z_max st |}.

(** The body of [for x_name in os.listdir(z_dir)], lines 34 to 38 *)
Definition x_body (z : Z) (item : str * node) (st : state) : result state :=
  let (x_name, x_dir) := item in
  if negb (isdigit x_name) || negb (os_path_isdir_node x_dir) then Ok st
  else
    x <- int x_name ;;
    for_each (y_body z x) (os_listdir x_dir) st.

(** The body of [for z_name in sorted(...)], lines 26 to 33: the zoom
    range is widened before the entry is known to be a folder. *)
Definition z_body (item : str * node) (st : state) : result state :=
  let (z_name, z_dir) := item in
  if negb (isdigit z_name) then Ok st
  else
    z <- int z_name ;;
    let st1 := {| table := table st; count := count st;
                  z_min := Z.min (z_min st) z; z_max := Z.max (z_max st) z |} in
    if negb (os_path_isdir_node z_dir) then Ok st1
    else for_each (x_body z) (os_listdir z_dir) st1.

Definition walk (entries : list (str * node)) : result state :=
  for_each z_body (sorted zoom_key entries) initial_state.

(** The rows of [executemany("INSERT INTO metadata(name,value) ...")],
    lines 57 to 66 *)
Definition metadata_rows (dst fmt : str) (st : state) : list (str * str) :=
  [ (lit "name", basename dst);
    (lit "type", lit "baselayer");
    (lit "version", lit "1.0");
    (lit "description", lit "Packed from XYZ folder");
    (lit "format", lower fmt);
    (lit "minzoom", str_of_int (if z_min st =? 99 then 0 else z_min st));
    (lit "maxzoom", str_of_int (if z_max st =? -1 then 0 else z_max st));
    (lit "attribution", lit "") ].

(** How a run ends: normally, with the summary it prints; by
    [raise SystemExit(message)], which ends the process with status 1; or by
    an exception nobody catches, after which the content of the destination
    is not specified. *)
Inductive outcome :=
| Done (w : world) (written : Z) (lo hi : Z)
| Exit (status : Z) (message : str) (w : world)
| Crashed (e : exn).

(** [xyz_to_mbtiles(src, dst, fmt)].  The source is tested first; then a
    destination that exists is removed and a new database with the two
    empty relations is created in its place; the walk fills [tiles]; the
    metadata rows are inserted and the whole is committed.  The paths of
    the world are independent of each other: the destination does not lie
    inside the source folder, and the folder it lies in exists and can be
    written, so that [sqlite3.connect(dst)] succeeds. *)
Definition xyz_to_mbtiles (w : world) (src dst fmt : str) : outcome :=
  if negb (os_path_isdir w src)
  then Exit 1 (lit "Source folder not found: " ++ src) w
  else
    match (if os_path_exists w dst then os_remove w dst else Ok w) with
    | Raise e => Crashed e
    | Ok w1 =>
        match walk (source_entries w1 src) with
        | Raise e => Crashed e
        | Ok st =>
            let db := {| metadata := Some (metadata_rows dst fmt st);
                         tiles := Some (table st) |} in
            Done (write w1 dst (Store db)) (count st) (z_min st) (z_max st)
        end
    end.

(** The entry point: [--format] is one of [png], [jpg], [jpeg]. *)
Definition format_choices : list str := [lit "png"; lit "jpg"; lit "jpeg"].

End Builder.

(** ** The server: [mbtiles_server.py] *)

Module Server.

(** What the handler writes after the headers.  The page that
    [send_error] renders is kept as its status and message; the JSON text
    of [json.dumps] is kept as the mapping it serialises. *)
Inductive payload :=
| Bytes (b : bytes)
| Json (mapping : list (str * str))
| ErrorPage (code : Z) (message : str).

Record response := {
  status : Z;
  headers : list (str * str);
  body : payload
}.

(** The handler either answers itself or hands the request to the static
    file handler it inherits from. *)
Inductive reply :=
| Sent (r : response)
| Static (path : str).

Definition send_error (code : Z) (message : str) : reply :=
  Sent {| status := code; headers := []; body := ErrorPage code message |}.

(** [sqlite3.connect(path)]: a missing file is created empty; a folder
    cannot be opened.  The connection is [None] when the file is not a
    database, which only shows when a statement runs. *)
Definition connection := option database.

Definition connect (w : world) (path : str) : result connection * world :=
  match lookup w path with
  | None => (Ok (Some empty_database), write w path (Plain (File [])))
  | Some (Plain (File [])) => (Ok (Some empty_database), w)
  | Some (Plain (File (_ :: _))) => (Ok None, w)
  | Some (Plain (Folder _)) => (Raise OperationalError, w)
  | Some (Store d) => (Ok (Some d), w)
  end.

Definition execute_select_tile (c : connection) (z x y : Z)
  : result (option bytes) :=
  match c with
  | None => Raise DatabaseError
  | Some d =>
      match tiles d with
      | None => Raise OperationalError
      | Some t => select_tile_data t z x y
      end
  end.

Definition execute_select_metadata (c : connection)
  : result (list (str * str)) :=
  match c with
  | None => Raise DatabaseError
  | Some d =>
      match metadata d with
      | None => Raise OperationalError
      | Some rows => Ok rows
      end
  end.

(** [dict(rows)]: a later row with a known name replaces its value and
    keeps the place of the name. *)
Fixpoint dict_set (k v : str) (d : list (str * str)) : list (str * str) :=
  match d with
  | [] => [(k, v)]
  | (k', v') :: r =>
      if str_eqb k' k then (k', v) :: r else (k', v') :: dict_set k v r
  end.

Definition dict (rows : list (str * str)) : list (str * str) :=
  fold_left (fun d kv => dict_set (fst kv) (snd kv) d) rows [].

(** [tms_y = (1 << z) - 1 - y], the conversion from XYZ to TMS (line 70) *)
Definition tms_y (z y : Z) : result Z :=
  p <- shl1 z ;;
  Ok (p - 1 - y).

(** The [try] block of [get_tile] *)
Definition get_tile_try (w : world) (mbtiles_path : str) (z x y : Z)
  : result (option bytes) * world :=
  let (conn, w') := connect w mbtiles_path in
  (c <- conn ;;
   row <- tms_y z y ;;
   execute_select_tile c z x row, w').

(** [get_tile]: [except Exception] turns every failure into [None].  The
    handler prints the three numbers first, and formatting an integer of
    more than 4300 digits raises in its turn; no request brings such a
    number here, [int()] having refused it, and the statements about
    [get_tile] on its own carry [within_digit_limit]. *)
Definition get_tile (w : world) (mbtiles_path : str) (z x y : Z)
  : option bytes * world :=
  match get_tile_try w mbtiles_path z x y with
  | (Ok r, w') => (r, w')
  | (Raise _, w') => (None, w')
  end.

Definition get_metadata_try (w : world) (mbtiles_path : str)
  : result (list (str * str)) * world :=
  let (conn, w') := connect w mbtiles_path in
  (c <- conn ;; rows <- execute_select_metadata c ;; Ok (dict rows), w').

Definition get_metadata (w : world) (mbtiles_path : str)
  : list (str * str) * world :=
  match get_metadata_try w mbtiles_path with
  | (Ok m, w') => (m, w')
  | (Raise _, w') => ([], w')
  end.

(** [urllib.parse.urlparse(target).path] for a request target in origin
    form (it starts with a slash): an authority after two slashes, the
    fragment, the query and the parameters of the last segment are cut
    off.  The model is meant for what a client sends as a path: for an
    authority with brackets the library can raise [ValueError], it deletes
    tabs and line ends, and it reads a scheme in front; none of the three
    is modelled, and no statement below depends on a target of that
    kind answering without an exception. *)
Fixpoint take_until (stop : ascii -> bool) (s : str) : str :=
  match s with
  | [] => []
  | a :: r => if stop a then [] else a :: take_until stop r
  end.

Fixpoint drop_until (stop : ascii -> bool) (s : str) : str :=
  match s with
  | [] => []
  | a :: r => if stop a then s else drop_until stop r
  end.

Definition is_char (c a : ascii) : bool := Ascii.eqb a c.

(** The parameters: cut at the first semicolon that no slash follows. *)
Fixpoint split_params (url : str) : str :=
  match url with
  | [] => []
  | a :: r =>
      if is_char ";"%char a && negb (existsb (is_char "/"%char) r) then []
      else a :: split_params r
  end.

Definition urlparse_path (target : str) : str :=
  let url :=
    match target with
    | a :: b :: r =>
        if is_char "/"%char a && is_char "/"%char b then
          drop_until (fun c => is_char "/"%char c || is_char "?"%char c
                               || is_char "#"%char c) r
        else target
    | _ => target
    end in
  let url := take_until (is_char "#"%char) url in
  let url := take_until (is_char "?"%char) url in
  split_params url.

(** [if tile_data:] *)
Definition truthy (t : option bytes) : bool :=
  match t with
  | Some (_ :: _) => true
  | _ => false
  end.

Definition tile_headers : list (str * str) :=
  [ (lit "Content-Type", lit "image/png");
    (lit "Access-Control-Allow-Origin", lit "*");
    (lit "Access-Control-Allow-Methods", lit "GET");
    (lit "Access-Control-Allow-Headers", lit "Content-Type") ].

Definition metadata_headers : list (str * str) :=
  [ (lit "Content-Type", lit "application/json");
    (lit "Access-Control-Allow-Origin", lit "*") ].

Definition tile_suffixes : list str := [lit ".png"; lit ".jpg"; lit ".jpeg"].

(** The extensions a tile request may carry *)
Definition tile_extensions : list str := [lit "png"; lit "jpg"; lit "jpeg"].

(** The three [int(...)] calls at the head of the [try] block *)
Definition parse_coordinates (p0 p1 p2 : str) : result (Z * Z * Z) :=
  z <- int p0 ;;
  x <- int p1 ;;
  y <- int (hd [] (split "."%char p2)) ;;
  Ok (z, x, y).

(** [do_GET], lines 20 to 60: the answer, or the exception that leaves
    the handler.  The metadata route is tried only when the path is not
    that of a tile. *)
Definition do_GET (w : world) (mbtiles_path : str) (self_path : str)
  : result reply * world :=
  let path_parts := split "/"%char (strip "/"%char (urlparse_path self_path)) in
  let otherwise :=
    if str_eqb self_path (lit "/metadata") then
      let (metadata, w') := get_metadata w mbtiles_path in
      (Ok (Sent {| status := 200; headers := metadata_headers;
                   body := Json metadata |}), w')
    else (Ok (Static self_path), w) in
  match path_parts with
  | [p0; p1; p2] =>
      if endswith_any p2 tile_suffixes then
        match parse_coordinates p0 p1 p2 with
        | Ok (z, x, y) =>
            let (tile_data, w') := get_tile w mbtiles_path z x y in
            if truthy tile_data then
              (Ok (Sent {| status := 200; headers := tile_headers;
                           body := Bytes (match tile_data with
                                          | Some b => b
                                          | None => []
                                          end) |}), w')
            else (Ok (send_error 404 (lit "Tile not found")), w')
        | Raise ValueError =>
            (Ok (send_error 400 (lit "Invalid tile coordinates")), w)
        | Raise e => (Raise e, w)
        end
      else otherwise
  | _ => otherwise
  end.

(** The request target [/{z}/{x}/{y}.{ext}] of a tile *)
Definition tile_url (z x y : Z) (ext : str) : str :=
  "/"%char :: str_of_int z ++ "/"%char :: str_of_int x
  ++ "/"%char :: str_of_int y ++ "."%char :: ext.

End Server.

(** ** The walk as a sequence of draft records

    The specification splits the builder into a walker, which yields draft
    records and the zooms it has seen, and a store, which ingests the
    drafts one by one.  The definitions of this module follow that reading;
    [Refinement.walk_ingest] below shows that the loops of the source
    compute the same thing. *)

Module TileWalker.

Record draft := {
  d_zoom : Z;
  d_column : Z;
  d_row : Z;          (* top-down *)
  d_source : node
}.

(** The row a leaf name stands for, when the name is one of a tile. *)
Definition leaf_row (y_file : str) : option Z :=
  if endswith y_file (lit ".png") || endswith y_file (lit ".jpg")
     || endswith y_file (lit ".jpeg")
  then
    let y_name := fst (splitext y_file) in
    if isdigit y_name then int_of_str y_name else None
  else None.

Definition leaf_drafts (z x : Z) (item : str * node) : list draft :=
  match leaf_row (fst item) with
  | Some y => [ {| d_zoom := z; d_column := x; d_row := y;
                   d_source := snd item |} ]
  | None => []
  end.

Definition column_drafts (z : Z) (item : str * node) : list draft :=
  if isdigit (fst item) && os_path_isdir_node (snd item) then
    match int_of_str (fst item) with
    | Some x => flat_map (leaf_drafts z x) (os_listdir (snd item))
    | None => []
    end
  else [].

Definition zoom_drafts (item : str * node) : list draft :=
  if isdigit (fst item) && os_path_isdir_node (snd item) then
    match int_of_str (fst item) with
    | Some z => flat_map (column_drafts z) (os_listdir (snd item))
    | None => []
    end
  else [].

(** The drafts of a source folder, in the order of the walk. *)
Definition drafts (entries : list (str * node)) : list draft :=
  flat_map zoom_drafts (sorted Builder.zoom_key entries).

(** The zoom a top-level entry stands for, if its name is a number. *)
Definition zoom_of_name (item : str * node) : list Z :=
  if isdigit (fst item) then
    match int_of_str (fst item) with
    | Some z => [z]
    | None => []
    end
  else [].

(** The zoom numbers of the top-level entries the walk looks at. *)
Definition zoom_names (entries : list (str * node)) : list Z :=
  flat_map zoom_of_name (sorted Builder.zoom_key entries).

(** Ingestion of one draft: flip the row, read the file, upsert. *)
Definition ingest_one (d : draft) (st : Builder.state)
  : result Builder.state :=
  row <- Builder.y_tms (d_zoom d) (d_row d) ;;
  blob <- open_rb (d_source d) ;;
  tbl <- insert_or_replace
           {| zoom_level := d_zoom d; tile_column := d_column d;
              tile_row := row; tile_data := blob |} (Builder.table st) ;;
  Ok {| Builder.table := tbl; Builder.count := Builder.count st + 1;
        Builder.z_min := Builder.z_min st; Builder.z_max := Builder.z_max st |}.

Definition ingest (ds : list draft) (st : Builder.state)
  : result Builder.state :=
  for_each ingest_one ds st.

(** Two drafts for the same top-down coordinate *)
Definition same_coordinate (d e : draft) : Prop :=
  d_zoom d = d_zoom e /\ d_column d = d_column e /\ d_row d = d_row e.

(** The smallest and largest zoom of a list of zooms, [0] for none. *)
Definition lowest (zs : list Z) : Z :=
  match zs with
  | [] => 0
  | z :: r => fold_right Z.min z r
  end.

Definition highest (zs : list Z) : Z :=
  match zs with
  | [] => 0
  | z :: r => fold_right Z.max z r
  end.

End TileWalker.

(** ** Auxiliary notions used by the statements *)

(** The characters of the decimal text of an integer *)
Definition coord_char (c : ascii) : bool :=
  is_digit c || Ascii.eqb c "-"%char.

(** The value of a digit list read least significant digit first *)
Definition lsd_value (s : str) : Z :=
  fold_right (fun c a => 10 * a + digit_val c) 0 s.

(** [c] does not occur in [s]. *)
Definition lacks (c : ascii) (s : str) : bool :=
  forallb (fun a => negb (Ascii.eqb a c)) s.

(** No two rows of the relation agree on the columns of [tile_index]. *)
Definition unique_keys (tbl : list tile) : Prop :=
  NoDup (map key_of tbl).

(** The rows of the relation stored under a key *)
Definition rows_at (z x y : Z) (tbl : list tile) : list tile :=
  filter (same_key z x y) tbl.

(** The row a draft is stored as: its row number flipped, its file read. *)
Definition tile_of (d : TileWalker.draft) : result tile :=
  row <- Builder.y_tms (TileWalker.d_zoom d) (TileWalker.d_row d) ;;
  blob <- open_rb (TileWalker.d_source d) ;;
  Ok {| zoom_level := TileWalker.d_zoom d;
        tile_column := TileWalker.d_column d;
        tile_row := row; tile_data := blob |}.

(** The state of the walk with its zoom range widened by [zs]. *)
Definition widen (zs : list Z) (st : Builder.state) : Builder.state :=
  {| Builder.table := Builder.table st;
     Builder.count := Builder.count st;
     Builder.z_min := fold_left Z.min zs (Builder.z_min st);
     Builder.z_max := fold_left Z.max zs (Builder.z_max st) |}.

(** The store behind a path cannot be read as a container with a metadata
    relation: the path is missing, or leads to something else, or the
    relation was never created. *)
Definition unreadable (w : world) (p : str) : Prop :=
  match lookup w p with
  | Some (Store d) => metadata d = None
  | _ => True
  end.

(** No row of the container behind a path is stored for the request
    [z/x/y]. *)
Definition absent (w : world) (p : str) (z x y : Z) : Prop :=
  exists db tbl,
    container_at w p = Some db /\ tiles db = Some tbl
    /\ forall t, In t tbl ->
                 same_key z x (Z.shiftl 1 z - 1 - y) t = false.

(** The value given to a name by a list of headers or of metadata rows *)
Fixpoint value_of (name : str) (rows : list (str * str)) : option str :=
  match rows with
  | [] => None
  | (n, v) :: r => if str_eqb n name then Some v else value_of name r
  end.

(** The media type that goes with an extension of the tile route *)
Definition content_type_of_ext (ext : str) : str :=
  if str_eqb ext (lit "png") then lit "image/png" else lit "image/jpeg".

(** ** Sample runs *)

Module Sample.

Definition b (s : string) : bytes := list_byte_of_string s.

Definition src : str := lit "tiles".
Definition dst : str := lit "out/map.mbtiles".

(** Scenario A: a single tile [0/0/0.png]. *)
Definition world_a : world :=
  [ (src, Plain (Folder
      [ (lit "0", Folder [ (lit "0", Folder
          [ (lit "0.png", File (b "PNGDATA")) ]) ]) ])) ].

(** The same tile as a JPEG file. *)
Definition world_jpg : world :=
  [ (src, Plain (Folder
      [ (lit "0", Folder [ (lit "0", Folder
          [ (lit "0.jpg", File (b "JPGDATA")) ]) ]) ])) ].

(** The same tree, the file being empty. *)
Definition world_empty_tile : world :=
  [ (src, Plain (Folder
      [ (lit "0", Folder [ (lit "0", Folder
          [ (lit "0.png", File []) ]) ]) ])) ].

(** Two files for one coordinate, and a file that is no tile. *)
Definition world_twice : world :=
  [ (src, Plain (Folder
      [ (lit "2", Folder [ (lit "3", Folder
          [ (lit "1.png", File (b "first"));
            (lit "notes.txt", File (b "text"));
            (lit "01.jpg", File (b "second")) ]) ]);
        (lit "README", File (b "about")) ])) ].

(** A top-level file with a number for a name; a numbered folder without
    tiles. *)
Definition world_numbered_file : world :=
  [ (src, Plain (Folder [ (lit "5", File []) ])) ].

Definition world_numbered_folder : world :=
  [ (src, Plain (Folder [ (lit "7", Folder [ (lit "0", Folder []) ]) ])) ].

(** A tile at zoom 100, in its last row. *)
Definition world_zoom_100 : world :=
  [ (src, Plain (Folder
      [ (lit "100", Folder [ (lit "0", Folder
          [ (lit "1267650600228229401496703205375.png", File (b "deep")) ])
        ]) ])) ].

(** A destination that exists while the source does not. *)
Definition world_no_source : world :=
  [ (dst, Store {| metadata := Some []; tiles := Some [] |}) ].

(** The world a run ends in, when it ends normally. *)
Definition built (w : world) (fmt : str) : world :=
  match Builder.xyz_to_mbtiles w src dst fmt with
  | Builder.Done w' _ _ _ => w'
  | _ => w
  end.

End Sample.

(** ** Requests in general, and the life of the server *)

(** A request target of the shape [/a/b/c.rest], the three parts being
    any text. *)
Definition tile_target (a b c rest : str) : str :=
  "/"%char :: a ++ "/"%char :: b ++ "/"%char :: c ++ "."%char :: rest.

(** Text without a slash, a question mark, a hash or a semicolon *)
Definition plain (s : str) : bool :=
  lacks "/"%char s && lacks "?"%char s && lacks "#"%char s
  && lacks ";"%char s.


(** The decimal text of [n] has at most 4300 digits, the most [int()]
    accepts. *)
Definition within_digit_limit (n : Z) : Prop :=
  (List.length (str_of_nonneg (Z.abs n)) <= 4300)%nat.

(** The coordinate a draft stands for, and the key it is stored under *)
Definition coordinate (d : TileWalker.draft) : Z * Z * Z :=
  (TileWalker.d_zoom d, TileWalker.d_column d, TileWalker.d_row d).

Definition flipped (c : Z * Z * Z) : Z * Z * Z :=
  let '(z, x, y) := c in (z, x, Z.shiftl 1 z - 1 - y).

(** What [do_GET] answers once the three numbers are parsed (lines 32 to
    44 of the server) *)
Definition answer_tile (w : world) (mbtiles_path : str) (z x y : Z)
  : result Server.reply * world :=
  let (tile_data, w') := Server.get_tile w mbtiles_path z x y in
  if Server.truthy tile_data then
    (Ok (Server.Sent {| Server.status := 200;
                        Server.headers := Server.tile_headers;
                        Server.body := Server.Bytes (match tile_data with
                                                     | Some b => b
                                                     | None => []
                                                     end) |}), w')
  else (Ok (Server.send_error 404 (lit "Tile not found")), w').

Module Httpd.

(** [main()] of the server: the container is looked for beside the
    script; when it is missing the function returns without listening. *)
Inductive startup :=
| NotStarted
| Listening (port : Z) (mbtiles_path : str).

Definition mbtiles_file (script_dir : str) : str :=
  script_dir ++ lit "/web/denmark_vfr.mbtiles".

Definition main (w : world) (script_dir : str) : startup :=
  if os_path_exists w (mbtiles_file script_dir)
  then Listening 8081 (mbtiles_file script_dir)
  else NotStarted.

(** [httpd.serve_forever()] on the GET requests that arrive: one handler
    after the other, each on the world the previous one left. *)
Fixpoint serve (w : world) (mbtiles_path : str) (targets : list str)
  : list (result Server.reply) * world :=
  match targets with
  | [] => ([], w)
  | t :: rest =>
      let (r, w1) := Server.do_GET w mbtiles_path t in
      let (rs, w2) := serve w1 mbtiles_path rest in
      (r :: rs, w2)
  end.

End Httpd.

(** ** More sample runs *)

Module Sample2.

(** A folder whose name is that of a tile *)
Definition world_folder_tile : world :=
  [ (Sample.src, Plain (Folder
      [ (lit "1", Folder [ (lit "0", Folder
          [ (lit "0.png", Folder []) ]) ]) ])) ].

(** A column beyond the range of an SQLite INTEGER *)
Definition world_wide_column : world :=
  [ (Sample.src, Plain (Folder
      [ (lit "1", Folder [ (lit "9223372036854775808", Folder
          [ (lit "0.png", File (Sample.b "far")) ]) ]) ])) ].

(** An old container at the destination, and a bystander *)
Definition world_rebuild : world :=
  [ (Sample.dst, Store {| metadata := Some [(lit "name", lit "old")];
                          tiles := Some [ {| zoom_level := 9; tile_column := 9;
                                             tile_row := 9;
                                             tile_data := Sample.b "old" |} ]
                        |});
    (lit "notes.txt", Plain (File (Sample.b "keep me")));
    (Sample.src, Plain (Folder
      [ (lit "3", Folder [ (lit "1", Folder
          [ (lit "2.jpeg", File (Sample.b "three")) ]) ]);
        (lit "1", Folder [ (lit "0", Folder
          [ (lit "0.png", File (Sample.b "one"));
            (lit "1.png", File (Sample.b "uno")) ]) ]) ])) ].

Definition script_dir : str := lit "/srv/app".

(** The container of scenario A, put where the server looks for it *)
Definition world_served : world :=
  [ (Httpd.mbtiles_file script_dir,
     Store {| metadata := Some [(lit "format", lit "png")];
              tiles := Some [ {| zoom_level := 0; tile_column := 0;
                                 tile_row := 0;
                                 tile_data := Sample.b "PNGDATA" |} ] |}) ].

End Sample2.

(** * Properties *)

(** ** Decimal text *)

Module Decimal.

Lemma is_digit_cases c :
  is_digit c = true ->
  In c (list_ascii_of_string "0123456789").
Proof.
  destruct c as [[] [] [] [] [] [] [] []]; vm_compute; intro H;
    try discriminate H; tauto.
Qed.

Lemma digit_char_spec d :
  0 <= d <= 9 ->
  is_digit (digit_char d) = true /\ digit_val (digit_char d) = d.
Proof.
  intros H.
  assert (C : d = 0 \/ d = 1 \/ d = 2 \/ d = 3 \/ d = 4 \/ d = 5 \/ d = 6
              \/ d = 7 \/ d = 8 \/ d = 9) by lia.
  repeat destruct C as [C | C]; subst d; split; reflexivity.
Qed.

Lemma digit_val_bounds c : is_digit c = true -> 0 <= digit_val c <= 9.
Proof.
  intros H. apply is_digit_cases in H. simpl in H.
  repeat destruct H as [H | H]; try contradiction; subst c; vm_compute;
    split; discriminate.
Qed.

Lemma digit_not_space c : is_digit c = true -> is_space c = false.
Proof.
  intros H. apply is_digit_cases in H. simpl in H.
  repeat destruct H as [H | H]; try contradiction; subst c; reflexivity.
Qed.

Lemma lsd_digits_S f n :
  lsd_digits (S f) n
  = digit_char (n mod 10) :: (if n <? 10 then [] else lsd_digits f (n / 10)).
Proof. reflexivity. Qed.

Lemma lsd_digits_value f : forall n,
  0 <= n < 2 ^ Z.of_nat (S f) ->
  lsd_value (lsd_digits (S f) n) = n
  /\ forallb is_digit (lsd_digits (S f) n) = true
  /\ lsd_digits (S f) n <> [].
Proof.
  induction f as [| f IH]; intros n Hn;
    rewrite lsd_digits_S;
    assert (Hm : 0 <= n mod 10 <= 9)
      by (pose proof (Z.mod_pos_bound n 10); lia);
    destruct (digit_char_spec _ Hm) as [Hd Hv];
    destruct (n <? 10) eqn:E.
  - apply Z.ltb_lt in E. unfold lsd_value. simpl. rewrite Hd, Hv.
    rewrite Z.mod_small by lia. repeat split; try lia. discriminate.
  - apply Z.ltb_ge in E. change (2 ^ Z.of_nat 1) with 2 in Hn. lia.
  - apply Z.ltb_lt in E. unfold lsd_value. simpl. rewrite Hd, Hv.
    rewrite Z.mod_small by lia. repeat split; try lia. discriminate.
  - apply Z.ltb_ge in E.
    assert (Hq : 0 <= n / 10 < 2 ^ Z.of_nat (S f)).
    { split; [apply Z.div_pos; lia |].
      rewrite (Nat2Z.inj_succ (S f)), Z.pow_succ_r in Hn by lia.
      apply Z.div_lt_upper_bound; lia. }
    destruct (IH _ Hq) as (Iv & Id & _).
    unfold lsd_value in *. cbn [fold_right forallb].
    rewrite Iv, Hd, Id, Hv.
    repeat split; try discriminate.
    pose proof (Z.div_mod n 10). lia.
Qed.

Lemma log2_fuel n : 0 <= n -> 0 <= n < 2 ^ Z.of_nat (S (Z.to_nat (Z.log2 n))).
Proof.
  intros H. split; [exact H |].
  rewrite Nat2Z.inj_succ, Z2Nat.id by apply Z.log2_nonneg.
  destruct (Z.eq_dec n 0) as [-> | N]; [reflexivity |].
  apply Z.log2_spec. lia.
Qed.

Lemma forallb_rev {A} (f : A -> bool) l : forallb f (rev l) = forallb f l.
Proof.
  induction l as [| a l IH]; [reflexivity |].
  simpl. rewrite forallb_app, IH. simpl. rewrite andb_true_r. apply andb_comm.
Qed.

Lemma fold_left_rev {A B} (g : A -> B -> A) l a :
  fold_left g (rev l) a = fold_right (fun c acc => g acc c) a l.
Proof.
  rewrite <- (rev_involutive l) at 2. now rewrite fold_left_rev_right.
Qed.

Lemma str_of_nonneg_digits n :
  0 <= n -> forallb is_digit (str_of_nonneg n) = true /\ str_of_nonneg n <> [].
Proof.
  intros H. destruct (lsd_digits_value _ _ (log2_fuel n H)) as (_ & D & N).
  unfold str_of_nonneg. rewrite forallb_rev. split; [exact D |].
  intro E. apply N. apply (f_equal (@rev ascii)) in E.
  rewrite rev_involutive in E. exact E.
Qed.

Lemma str_of_nonneg_isdigit n : 0 <= n -> isdigit (str_of_nonneg n) = true.
Proof.
  intros H. destruct (str_of_nonneg_digits n H) as [D N].
  unfold isdigit. destruct (str_of_nonneg n); [contradiction | exact D].
Qed.

(** All characters of the decimal text of an integer are digits, but for
    a leading minus sign. *)
Lemma str_of_int_chars n : forallb coord_char (str_of_int n) = true.
Proof.
  assert (W : forall s, forallb is_digit s = true -> forallb coord_char s = true).
  { induction s as [| c s IH]; [reflexivity |]. simpl.
    intros H. apply andb_true_iff in H as [H1 H2].
    unfold coord_char at 1. rewrite H1, IH by exact H2. reflexivity. }
  unfold str_of_int. destruct (n <? 0) eqn:E.
  - apply Z.ltb_lt in E. simpl. apply W, str_of_nonneg_digits. lia.
  - apply Z.ltb_ge in E. apply W, str_of_nonneg_digits. lia.
Qed.

Lemma str_of_int_nonempty n : str_of_int n <> [].
Proof.
  unfold str_of_int. destruct (n <? 0) eqn:E; [discriminate |].
  apply Z.ltb_ge in E. apply str_of_nonneg_digits. exact E.
Qed.

(** Reading a digit string, most significant digit first *)
Lemma digits_value_digits s : forall b acc,
  forallb is_digit s = true ->
  (s <> [] \/ b = true) ->
  digits_value b acc s
  = Some (fold_left (fun a c => 10 * a + digit_val c) s acc).
Proof.
  induction s as [| c s IH]; intros b acc D N.
  - destruct N as [N | ->]; [congruence | reflexivity].
  - simpl in D. apply andb_true_iff in D as [D1 D2].
    simpl. rewrite D1. apply IH; [exact D2 | now right].
Qed.

Lemma lstrip_space_head c s : is_space c = false -> lstrip_space (c :: s) = c :: s.
Proof. intros H. simpl. now rewrite H. Qed.

Lemma strip_space_id s :
  forallb (fun c => negb (is_space c)) s = true -> strip_space s = s.
Proof.
  intros H. unfold strip_space.
  assert (L : forall t, forallb (fun c => negb (is_space c)) t = true ->
                        lstrip_space t = t).
  { intros [| c t] Ht; [reflexivity |]. simpl in Ht.
    apply andb_true_iff in Ht as [Hc _]. apply lstrip_space_head.
    now apply negb_true_iff. }
  rewrite (L s H), L, rev_involutive; [reflexivity |].
  now rewrite forallb_rev.
Qed.

Lemma digits_no_space s :
  forallb is_digit s = true -> forallb (fun c => negb (is_space c)) s = true.
Proof.
  induction s as [| c s IH]; [reflexivity |]. simpl. intros H.
  apply andb_true_iff in H as [H1 H2].
  rewrite (digit_not_space c H1), IH by exact H2. reflexivity.
Qed.

(** [int] of a digit string is its decimal value; it never fails. *)
Lemma int_of_str_digits s :
  isdigit s = true ->
  int_of_str s = Some (fold_left (fun a c => 10 * a + digit_val c) s 0).
Proof.
  intros H. unfold isdigit in H. destruct s as [| c s]; [discriminate |].
  unfold int_of_str. rewrite strip_space_id by now apply digits_no_space.
  pose proof H as D. simpl in D. apply andb_true_iff in D as [D1 D2].
  pose proof (is_digit_cases c D1) as C. simpl in C.
  repeat destruct C as [C | C]; try contradiction; subst c;
    apply digits_value_digits; try exact H; left; discriminate.
Qed.

Lemma fold_digits_nonneg s : forall acc,
  forallb is_digit s = true -> 0 <= acc ->
  0 <= fold_left (fun a c => 10 * a + digit_val c) s acc.
Proof.
  induction s as [| c s IH]; intros acc D A; [exact A |].
  simpl in D. apply andb_true_iff in D as [D1 D2]. cbn [fold_left].
  apply IH; [exact D2 |]. pose proof (digit_val_bounds c D1). lia.
Qed.

(** A name made of digits stands for a natural number. *)
Lemma int_of_str_isdigit s :
  isdigit s = true -> exists v, int_of_str s = Some v /\ 0 <= v.
Proof.
  intros H. eexists. split; [apply int_of_str_digits, H |].
  apply fold_digits_nonneg; [| lia].
  unfold isdigit in H. destruct s; [discriminate | exact H].
Qed.

Lemma int_of_str_nonneg n : 0 <= n -> int_of_str (str_of_nonneg n) = Some n.
Proof.
  intros H. rewrite int_of_str_digits by now apply str_of_nonneg_isdigit.
  f_equal. unfold str_of_nonneg. rewrite fold_left_rev.
  apply (lsd_digits_value _ _ (log2_fuel n H)).
Qed.

(** [int(str(n)) == n] *)
Lemma int_str n : int (str_of_int n) = Ok n.
Proof.
  unfold int, str_of_int. destruct (n <? 0) eqn:E.
  - apply Z.ltb_lt in E.
    assert (P : 0 <= - n) by lia.
    destruct (str_of_nonneg_digits _ P) as [D N].
    unfold int_of_str. rewrite strip_space_id.
    + rewrite digits_value_digits; [| exact D | now left].
      cbn [option_map]. f_equal. unfold str_of_nonneg. rewrite fold_left_rev.
      destruct (lsd_digits_value _ _ (log2_fuel _ P)) as (V & _).
      unfold lsd_value in V. rewrite V. lia.
    + simpl. now apply digits_no_space.
  - apply Z.ltb_ge in E. now rewrite int_of_str_nonneg.
Qed.

End Decimal.

(** ** Splitting, stripping and suffixes *)

Module Text.

Lemma str_eqb_refl s : str_eqb s s = true.
Proof.
  induction s as [| c s IH]; [reflexivity |].
  simpl. now rewrite Ascii.eqb_refl, IH.
Qed.

Lemma str_eqb_eq a : forall b, str_eqb a b = true <-> a = b.
Proof.
  induction a as [| x a IH]; intros [| y b]; simpl; split; intro H;
    try reflexivity; try discriminate.
  - apply andb_true_iff in H as [H1 H2].
    apply Ascii.eqb_eq in H1. apply IH in H2. now subst.
  - injection H as -> ->. now rewrite Ascii.eqb_refl, str_eqb_refl.
Qed.

Lemma skipn_app_length {A} (a b : list A) :
  skipn (List.length (a ++ b) - List.length b) (a ++ b) = b.
Proof.
  rewrite length_app.
  replace (List.length a + List.length b - List.length b)%nat
    with (List.length a) by lia.
  induction a as [| x a IH]; [reflexivity | exact IH].
Qed.

(** A string ends with what was appended to it. *)
Lemma endswith_app a suffix : endswith (a ++ suffix) suffix = true.
Proof.
  unfold endswith. rewrite skipn_app_length, str_eqb_refl, andb_true_r.
  apply Nat.leb_le. rewrite length_app. lia.
Qed.

Lemma split_lacks sep s : lacks sep s = true -> split sep s = [s].
Proof.
  induction s as [| a s IH]; [reflexivity |].
  unfold lacks. simpl. intros H. apply andb_true_iff in H as [H1 H2].
  apply negb_true_iff in H1. rewrite H1, (IH H2). reflexivity.
Qed.

Lemma split_app sep a b :
  lacks sep a = true -> split sep (a ++ sep :: b) = a :: split sep b.
Proof.
  induction a as [| c a IH]; intros H.
  - simpl. now rewrite Ascii.eqb_refl.
  - unfold lacks in H. simpl in H. apply andb_true_iff in H as [H1 H2].
    apply negb_true_iff in H1. simpl. rewrite H1, (IH H2). reflexivity.
Qed.

Lemma last_app_cons {A} (a : list A) b r d :
  last (a ++ b :: r) d = last (b :: r) d.
Proof.
  induction a as [| x a IH]; [reflexivity |].
  simpl app. rewrite <- IH. simpl. destruct (a ++ b :: r) eqn:E; [| reflexivity].
  destruct a; discriminate.
Qed.

Lemma last_cons_app_cons {A} (c : A) a b r d :
  last (c :: a ++ b :: r) d = last (b :: r) d.
Proof. apply (last_app_cons (c :: a)). Qed.

Lemma rstrip_id c s : last s c <> c -> rstrip c s = s.
Proof.
  intros H. unfold rstrip.
  rewrite <- (rev_involutive s) in H |- * at 2.
  destruct (rev s) as [| d t]; [now elim H |].
  simpl in H. rewrite last_last in H.
  simpl lstrip. destruct (Ascii.eqb d c) eqn:E; [| reflexivity].
  apply Ascii.eqb_eq in E. congruence.
Qed.

Lemma lstrip_id c a s : Ascii.eqb a c = false -> lstrip c (a :: s) = a :: s.
Proof. intros H. simpl. now rewrite H. Qed.

Lemma take_until_id stop s :
  forallb (fun a => negb (stop a)) s = true -> Server.take_until stop s = s.
Proof.
  induction s as [| a s IH]; [reflexivity |]. simpl. intros H.
  apply andb_true_iff in H as [H1 H2]. apply negb_true_iff in H1.
  now rewrite H1, IH.
Qed.

Lemma split_params_id s :
  lacks ";"%char s = true -> Server.split_params s = s.
Proof.
  induction s as [| a s IH]; [reflexivity |]. unfold lacks. simpl. intros H.
  apply andb_true_iff in H as [H1 H2]. apply negb_true_iff in H1.
  unfold Server.is_char at 1. rewrite H1. simpl. now rewrite IH.
Qed.

Lemma lacks_app c a b : lacks c (a ++ b) = lacks c a && lacks c b.
Proof. apply forallb_app. Qed.

Lemma lacks_cons c a s :
  lacks c (a :: s) = negb (Ascii.eqb a c) && lacks c s.
Proof. reflexivity. Qed.

(** The decimal text of an integer holds no separator of a request. *)
Lemma coord_lacks c n :
  coord_char c = false -> lacks c (str_of_int n) = true.
Proof.
  intros H. pose proof (Decimal.str_of_int_chars n) as F.
  unfold lacks. induction (str_of_int n) as [| a s IH]; [reflexivity |].
  simpl in *. apply andb_true_iff in F as [F1 F2]. rewrite (IH F2), andb_true_r.
  apply negb_true_iff. destruct (Ascii.eqb a c) eqn:E; [| reflexivity].
  apply Ascii.eqb_eq in E. congruence.
Qed.

End Text.

(** ** The route of a tile request *)

Module Route.

Import Server Text.

(** One case per extension of the route *)
Ltac each_extension H :=
  simpl in H; destruct H as [<- | [<- | [<- | []]]].

Lemma tile_url_lacks c z x y ext :
  In ext tile_extensions ->
  coord_char c = false ->
  Ascii.eqb c "/"%char = false ->
  lacks c (lit ".png") = true -> lacks c (lit ".jpg") = true ->
  lacks c (lit ".jpeg") = true ->
  lacks c (tile_url z x y ext) = true.
Proof.
  intros He Hc Hs P J G. unfold tile_url.
  assert (Hsl : Ascii.eqb "/"%char c = false)
    by (rewrite Ascii.eqb_sym; exact Hs).
  repeat (rewrite lacks_cons || rewrite lacks_app).
  rewrite !coord_lacks, Hsl by exact Hc. simpl negb. simpl andb.
  change ("."%char :: ext) with (["."%char] ++ ext) in *.
  each_extension He; assumption.
Qed.

Lemma urlparse_tile_url z x y ext :
  In ext tile_extensions ->
  urlparse_path (tile_url z x y ext) = tile_url z x y ext.
Proof.
  intros He. unfold urlparse_path.
  assert (H1 : lacks "#"%char (tile_url z x y ext) = true)
    by (apply tile_url_lacks; auto).
  assert (H2 : lacks "?"%char (tile_url z x y ext) = true)
    by (apply tile_url_lacks; auto).
  assert (H3 : lacks ";"%char (tile_url z x y ext) = true)
    by (apply tile_url_lacks; auto).
  assert (H0 : match tile_url z x y ext with
               | a :: b :: r =>
                   if is_char "/"%char a && is_char "/"%char b then
                     drop_until (fun c => is_char "/"%char c
                                          || is_char "?"%char c
                                          || is_char "#"%char c) r
                   else tile_url z x y ext
               | _ => tile_url z x y ext
               end = tile_url z x y ext).
  { unfold tile_url.
    pose proof (Decimal.str_of_int_chars z) as Hz.
    pose proof (Decimal.str_of_int_nonempty z) as Nz.
    destruct (str_of_int z) as [| c s]; [congruence |].
    simpl in Hz. apply andb_true_iff in Hz as [Hz _].
    simpl app. cbv iota beta.
    replace (is_char "/"%char c) with false; [now rewrite andb_false_r |].
    symmetry. unfold is_char. destruct (Ascii.eqb c "/"%char) eqn:E;
      [| reflexivity].
    apply Ascii.eqb_eq in E. subst c. discriminate Hz. }
  rewrite H0.
  rewrite (take_until_id (is_char "#"%char)) by exact H1.
  rewrite (take_until_id (is_char "?"%char)) by exact H2.
  apply split_params_id, H3.
Qed.

Lemma strip_tile_url z x y ext :
  In ext tile_extensions ->
  strip "/"%char (tile_url z x y ext)
  = str_of_int z ++ "/"%char :: str_of_int x
    ++ "/"%char :: str_of_int y ++ "."%char :: ext.
Proof.
  intros He. unfold strip, tile_url.
  assert (L : lstrip "/"%char
                ("/"%char :: str_of_int z ++ "/"%char :: str_of_int x
                 ++ "/"%char :: str_of_int y ++ "."%char :: ext)
              = str_of_int z ++ "/"%char :: str_of_int x
                ++ "/"%char :: str_of_int y ++ "."%char :: ext).
  { cbn [lstrip]. rewrite Ascii.eqb_refl.
    pose proof (Decimal.str_of_int_chars z) as Hz.
    pose proof (Decimal.str_of_int_nonempty z) as Nz.
    destruct (str_of_int z) as [| c s]; [congruence |].
    simpl in Hz. apply andb_true_iff in Hz as [Hz _].
    simpl app. apply lstrip_id.
    destruct (Ascii.eqb c "/"%char) eqn:E; [| reflexivity].
    apply Ascii.eqb_eq in E. subst c. discriminate Hz. }
  rewrite L. apply rstrip_id.
  rewrite last_app_cons, !last_cons_app_cons.
  each_extension He; intro E; vm_compute in E; discriminate E.
Qed.

Lemma split_tile_url z x y ext :
  In ext tile_extensions ->
  split "/"%char (str_of_int z ++ "/"%char :: str_of_int x
                  ++ "/"%char :: str_of_int y ++ "."%char :: ext)
  = [str_of_int z; str_of_int x; str_of_int y ++ "."%char :: ext].
Proof.
  intros He.
  rewrite !split_app by (apply coord_lacks; reflexivity).
  rewrite split_lacks; [reflexivity |].
  change ("."%char :: ext) with (["."%char] ++ ext).
  rewrite !lacks_app, coord_lacks by reflexivity.
  each_extension He; reflexivity.
Qed.

Lemma endswith_tile_name s ext :
  In ext tile_extensions ->
  endswith_any (s ++ "."%char :: ext) tile_suffixes = true.
Proof.
  intros He. unfold endswith_any. apply existsb_exists.
  exists ("."%char :: ext). split; [| apply endswith_app].
  each_extension He; simpl; auto.
Qed.

Lemma parse_tile_url z x y ext :
  parse_coordinates (str_of_int z) (str_of_int x)
                    (str_of_int y ++ "."%char :: ext)
  = Ok (z, x, y).
Proof.
  unfold parse_coordinates.
  rewrite split_app by (apply coord_lacks; reflexivity).
  cbn [hd]. rewrite !Decimal.int_str. reflexivity.
Qed.

(** A request for [/{z}/{x}/{y}.{ext}] reaches [get_tile] with the three
    numbers of its path, and is answered from what [get_tile] returns. *)
Lemma do_GET_tile_url w path z x y ext :
  In ext tile_extensions ->
  do_GET w path (tile_url z x y ext)
  = (let (tile_data, w') := get_tile w path z x y in
     if truthy tile_data then
       (Ok (Sent {| status := 200; headers := tile_headers;
                    body := Bytes (match tile_data with
                                   | Some b => b
                                   | None => []
                                   end) |}), w')
     else (Ok (send_error 404 (lit "Tile not found")), w')).
Proof.
  intros He. unfold do_GET.
  rewrite (urlparse_tile_url z x y ext He), (strip_tile_url z x y ext He),
    (split_tile_url z x y ext He), (endswith_tile_name _ ext He),
    parse_tile_url.
  reflexivity.
Qed.

End Route.

(** ** Loops and exceptions *)

Module Loop.

Lemma bind_ok {A} (m : result A) : bind m Ok = m.
Proof. now destruct m. Qed.

Lemma bind_assoc {A B C} (m : result A) (f : A -> result B)
      (g : B -> result C) :
  bind (bind m f) g = bind m (fun a => bind (f a) g).
Proof. now destruct m. Qed.

Lemma bind_ext {A B} (m : result A) (f g : A -> result B) :
  (forall a, f a = g a) -> bind m f = bind m g.
Proof. intros H. destruct m; [apply H | reflexivity]. Qed.

Lemma for_each_app {A S} (body : A -> S -> result S) l1 : forall l2 s,
  for_each body (l1 ++ l2) s
  = bind (for_each body l1 s) (for_each body l2).
Proof.
  induction l1 as [| a l1 IH]; intros l2 s; [reflexivity |].
  simpl. rewrite bind_assoc. apply bind_ext. intro s'. apply IH.
Qed.

(** A loop over [l] whose body runs an inner loop over [f a] is a loop
    over the concatenation. *)
Lemma for_each_flat_map {A B S} (inner : B -> S -> result S)
      (f : A -> list B) (body : A -> S -> result S) l :
  (forall a s, body a s = for_each inner (f a) s) ->
  forall s, for_each body l s = for_each inner (flat_map f l) s.
Proof.
  intros H. induction l as [| a l IH]; intros s; [reflexivity |].
  simpl. rewrite for_each_app, H. apply bind_ext. exact IH.
Qed.

Lemma for_each_ok_app {A S} (body : A -> S -> result S) l1 l2 s s' :
  for_each body (l1 ++ l2) s = Ok s' ->
  exists s1, for_each body l1 s = Ok s1 /\ for_each body l2 s1 = Ok s'.
Proof.
  rewrite for_each_app. destruct (for_each body l1 s) as [s1 | e]; simpl;
    intros H; [now exists s1 | discriminate].
Qed.

End Loop.

(** ** The tiles relation *)

Module Table.

Lemma same_key_spec z x y t : same_key z x y t = true <-> key_of t = (z, x, y).
Proof.
  unfold same_key, key_of. rewrite !andb_true_iff, !Z.eqb_eq.
  split; [intros [[-> ->] ->]; reflexivity | intros [= -> -> ->]; auto].
Qed.

Lemma same_key_self t :
  same_key (zoom_level t) (tile_column t) (tile_row t) t = true.
Proof. now apply same_key_spec. Qed.

Lemma same_key_false z x y t :
  same_key z x y t = false <-> key_of t <> (z, x, y).
Proof.
  rewrite <- same_key_spec. destruct (same_key z x y t); split; congruence.
Qed.

Lemma find_app_none {A} (f : A -> bool) l1 l2 :
  find f l1 = None -> find f (l1 ++ l2) = find f l2.
Proof.
  induction l1 as [| a l1 IH]; [reflexivity |]. simpl.
  destruct (f a); [discriminate | exact IH].
Qed.

Lemma find_app_some {A} (f : A -> bool) l1 l2 a :
  find f l1 = Some a -> find f (l1 ++ l2) = Some a.
Proof.
  induction l1 as [| b l1 IH]; [discriminate |]. simpl.
  destruct (f b); [trivial | exact IH].
Qed.

Lemma find_filter_out {A} (f g : A -> bool) l :
  (forall a, f a = true -> g a = true) ->
  find f (filter g l) = find f l.
Proof.
  intros H. induction l as [| a l IH]; [reflexivity |]. simpl.
  destruct (g a) eqn:G; simpl; destruct (f a) eqn:F; auto.
  rewrite (H a F) in G. discriminate.
Qed.

Lemma find_filter_none {A} (f : A -> bool) l :
  find f (filter (fun a => negb (f a)) l) = None.
Proof.
  induction l as [| a l IH]; [reflexivity |]. simpl.
  destruct (f a) eqn:F; simpl; [exact IH | now rewrite F].
Qed.

(** What an upsert does to the relation. *)
Lemma insert_or_replace_ok t tbl tbl' :
  insert_or_replace t tbl = Ok tbl' ->
  tbl' = filter (fun r => negb (same_key (zoom_level t) (tile_column t)
                                         (tile_row t) r)) tbl ++ [t]
  /\ int64 (zoom_level t) = true /\ int64 (tile_column t) = true
  /\ int64 (tile_row t) = true.
Proof.
  unfold insert_or_replace.
  destruct (int64 (zoom_level t)) eqn:E1; [| discriminate].
  destruct (int64 (tile_column t)) eqn:E2; [| discriminate].
  destruct (int64 (tile_row t)) eqn:E3; [| discriminate].
  simpl. intros [= <-]. auto.
Qed.

(** The row just written is the one a query for its key finds. *)
Lemma insert_or_replace_find t tbl tbl' :
  insert_or_replace t tbl = Ok tbl' ->
  find (same_key (zoom_level t) (tile_column t) (tile_row t)) tbl' = Some t.
Proof.
  intros H. apply insert_or_replace_ok in H as (-> & _).
  rewrite find_app_none by apply find_filter_none.
  simpl. now rewrite same_key_self.
Qed.

(** The rows under other keys are left alone. *)
Lemma insert_or_replace_other t tbl tbl' z x y :
  insert_or_replace t tbl = Ok tbl' ->
  key_of t <> (z, x, y) ->
  find (same_key z x y) tbl' = find (same_key z x y) tbl.
Proof.
  intros H N. apply insert_or_replace_ok in H as (-> & _).
  assert (F : find (same_key z x y)
                (filter (fun r => negb (same_key (zoom_level t)
                                          (tile_column t) (tile_row t) r)) tbl)
              = find (same_key z x y) tbl).
  { apply find_filter_out. intros a Ha. apply negb_true_iff.
    apply same_key_false. apply same_key_spec in Ha. unfold key_of in *.
    congruence. }
  destruct (find (same_key z x y) tbl) as [r |] eqn:E.
  - now apply find_app_some.
  - rewrite find_app_none by exact F. simpl.
    apply same_key_false in N. now rewrite N.
Qed.

Lemma NoDup_map_filter {A B} (f : A -> B) (g : A -> bool) l :
  NoDup (map f l) -> NoDup (map f (filter g l)).
Proof.
  induction l as [| a l IH]; [trivial |]. simpl. intros H.
  inversion H as [| ? ? Hn Hd]; subst.
  destruct (g a); [| now apply IH].
  simpl. constructor; [| now apply IH].
  intro Hin. apply Hn. apply in_map_iff in Hin as (b & Eb & Hb).
  apply filter_In in Hb as [Hb _]. apply in_map_iff. now exists b.
Qed.

Lemma NoDup_snoc {A} (l : list A) a :
  NoDup l -> ~ In a l -> NoDup (l ++ [a]).
Proof.
  intros U N. apply (NoDup_Add (Add_app a l [])).
  rewrite app_nil_r. now split.
Qed.

(** The index stays unique through every write. *)
Lemma insert_or_replace_unique t tbl tbl' :
  unique_keys tbl ->
  insert_or_replace t tbl = Ok tbl' ->
  unique_keys tbl'.
Proof.
  unfold unique_keys. intros U H. apply insert_or_replace_ok in H as (-> & _).
  rewrite map_app. apply NoDup_snoc; [now apply NoDup_map_filter |].
  intro Hin. apply in_map_iff in Hin as (b & Eb & Hb).
  apply filter_In in Hb as [_ Hb]. apply negb_true_iff in Hb.
  apply same_key_false in Hb. apply Hb. exact Eb.
Qed.

(** Under a unique index, the row a query finds is the only one. *)
Lemma unique_rows_at z x y tbl t :
  unique_keys tbl ->
  find (same_key z x y) tbl = Some t ->
  rows_at z x y tbl = [t].
Proof.
  unfold unique_keys, rows_at.
  induction tbl as [| a tbl IH]; [discriminate |]. simpl. intros U F.
  inversion U as [| ? ? Hn Hd]; subst.
  destruct (same_key z x y a) eqn:E.
  - injection F as ->. f_equal.
    apply same_key_spec in E.
    clear IH U Hd. induction tbl as [| b tbl IHt]; [reflexivity |].
    simpl. destruct (same_key z x y b) eqn:Eb.
    + apply same_key_spec in Eb. elim Hn. left. congruence.
    + apply IHt. intro Hin. apply Hn. now right.
  - now apply IH.
Qed.

End Table.

(** ** The loops of the builder and the ingestion of drafts *)

Module Refinement.

Import Loop TileWalker.

Lemma widen_nil st : widen [] st = st.
Proof. now destruct st. Qed.

Lemma widen_app zs1 zs2 st : widen zs2 (widen zs1 st) = widen (zs1 ++ zs2) st.
Proof. unfold widen. simpl. now rewrite !fold_left_app. Qed.

Lemma int_isdigit s :
  isdigit s = true -> exists v, int_of_str s = Some v /\ int s = Ok v /\ 0 <= v.
Proof.
  intros H. destruct (Decimal.int_of_str_isdigit s H) as (v & E & P).
  exists v. unfold int. now rewrite E.
Qed.

Lemma y_body_drafts z x item st :
  Builder.y_body z x item st = ingest (leaf_drafts z x item) st.
Proof.
  destruct item as [y_file f].
  unfold Builder.y_body, leaf_drafts, leaf_row. cbn [fst snd].
  destruct (endswith y_file (lit ".png") || endswith y_file (lit ".jpg")
            || endswith y_file (lit ".jpeg")); [| reflexivity].
  cbn [negb]. destruct (isdigit (fst (splitext y_file))) eqn:D; [| reflexivity].
  destruct (int_isdigit _ D) as (v & E & I & _).
  rewrite E, I. cbn [negb bind]. unfold ingest. cbn [for_each].
  now rewrite bind_ok.
Qed.

Lemma x_body_drafts z item st :
  Builder.x_body z item st = ingest (column_drafts z item) st.
Proof.
  destruct item as [x_name x_dir].
  unfold Builder.x_body, column_drafts. cbn [fst snd].
  destruct (isdigit x_name) eqn:D; [| reflexivity].
  destruct (os_path_isdir_node x_dir); [| reflexivity].
  destruct (int_isdigit _ D) as (v & E & I & _).
  rewrite E, I. cbn [negb orb andb bind].
  apply for_each_flat_map. intros a s. apply y_body_drafts.
Qed.

Lemma z_body_drafts item st :
  Builder.z_body item st
  = ingest (zoom_drafts item) (widen (zoom_of_name item) st).
Proof.
  destruct item as [z_name z_dir].
  unfold Builder.z_body, zoom_drafts, zoom_of_name. cbn [fst snd].
  destruct (isdigit z_name) eqn:D;
    [| cbn [negb andb]; now rewrite widen_nil].
  destruct (int_isdigit _ D) as (v & E & I & _).
  rewrite E, I. cbn [negb andb bind].
  destruct (os_path_isdir_node z_dir); [| reflexivity].
  cbn [negb]. apply for_each_flat_map. intros a s. apply x_body_drafts.
Qed.

(** Ingestion does not look at the zoom range, nor change it. *)
Lemma ingest_widen zs ds : forall st,
  ingest ds (widen zs st)
  = bind (ingest ds st) (fun st' => Ok (widen zs st')).
Proof.
  unfold ingest. induction ds as [| d ds IH]; intros st; [reflexivity |].
  cbn [for_each]. rewrite bind_assoc.
  unfold ingest_one at 1 3. cbn [Builder.table Builder.count widen
    Builder.z_min Builder.z_max].
  destruct (Builder.y_tms (d_zoom d) (d_row d)); [| reflexivity].
  destruct (open_rb (d_source d)); [| reflexivity].
  cbn [bind].
  match goal with
  | |- context [insert_or_replace ?t ?tb] =>
      destruct (insert_or_replace t tb) as [tbl |]; [| reflexivity]
  end.
  cbn [bind]. rewrite <- IH. reflexivity.
Qed.

Lemma ingest_app ds1 ds2 st :
  ingest (ds1 ++ ds2) st = bind (ingest ds1 st) (ingest ds2).
Proof. apply for_each_app. Qed.

Lemma z_loop_ingest l : forall st,
  for_each Builder.z_body l st
  = bind (ingest (flat_map zoom_drafts l) st)
         (fun st' => Ok (widen (flat_map zoom_of_name l) st')).
Proof.
  induction l as [| a l IH]; intros st.
  - cbn. now rewrite widen_nil.
  - cbn [for_each flat_map]. rewrite z_body_drafts, ingest_widen, ingest_app.
    rewrite !bind_assoc. apply bind_ext. intro s. cbn [bind].
    rewrite IH, ingest_widen, bind_assoc. apply bind_ext. intro s'.
    cbn [bind]. now rewrite widen_app.
Qed.

(** The three nested loops of [xyz_to_mbtiles] ingest the drafts of the
    walker in order, and end with the zoom range widened by every
    numbered top-level entry. *)
Lemma walk_ingest entries :
  Builder.walk entries
  = bind (ingest (drafts entries) Builder.initial_state)
         (fun st => Ok (widen (zoom_names entries) st)).
Proof. apply z_loop_ingest. Qed.

End Refinement.

(** ** What ingestion leaves in the relation *)

Module Ingest.

Import Loop TileWalker Table.

Lemma ingest_one_ok d st st' :
  ingest_one d st = Ok st' ->
  exists t, tile_of d = Ok t
    /\ insert_or_replace t (Builder.table st) = Ok (Builder.table st')
    /\ Builder.z_min st' = Builder.z_min st
    /\ Builder.z_max st' = Builder.z_max st.
Proof.
  unfold ingest_one, tile_of.
  destruct (Builder.y_tms (d_zoom d) (d_row d)) as [row |]; [| discriminate].
  destruct (open_rb (d_source d)) as [blob |]; [| discriminate].
  cbn [bind].
  match goal with
  | |- context [insert_or_replace ?t ?tb] =>
      destruct (insert_or_replace t tb) as [tbl |] eqn:E; [| discriminate]
  end.
  cbn [bind]. intros [= <-]. eexists. split; [reflexivity |]. now rewrite E.
Qed.

(** The row of a draft: same zoom and column, the row number flipped. *)
Lemma tile_of_ok d t :
  tile_of d = Ok t ->
  0 <= d_zoom d
  /\ zoom_level t = d_zoom d /\ tile_column t = d_column d
  /\ tile_row t = Z.shiftl 1 (d_zoom d) - 1 - d_row d
  /\ d_source d = File (tile_data t).
Proof.
  unfold tile_of, Builder.y_tms, shl1.
  destruct (d_zoom d <? 0) eqn:E; [discriminate |].
  apply Z.ltb_ge in E. cbn [bind].
  destruct (d_source d) as [b | es]; [| discriminate].
  cbn [open_rb bind]. intros [= <-]. cbn. auto.
Qed.

Lemma tile_of_same_key d e t u :
  tile_of d = Ok t -> tile_of e = Ok u ->
  key_of t = key_of u -> same_coordinate d e.
Proof.
  intros Hd He K.
  apply tile_of_ok in Hd as (_ & Z1 & X1 & R1 & _).
  apply tile_of_ok in He as (_ & Z2 & X2 & R2 & _).
  unfold key_of in K. injection K as Kz Kx Kr.
  unfold same_coordinate. rewrite <- Z1, <- Z2, <- X1, <- X2.
  repeat split; try assumption.
  rewrite R1, R2 in Kr. rewrite <- Z1, <- Z2, Kz in Kr. lia.
Qed.

Lemma ingest_unique ds : forall st st',
  unique_keys (Builder.table st) ->
  ingest ds st = Ok st' ->
  unique_keys (Builder.table st').
Proof.
  unfold ingest. induction ds as [| d ds IH]; intros st st' U H.
  - injection H as <-. exact U.
  - cbn [for_each] in H.
    destruct (ingest_one d st) as [s1 |] eqn:E; [| discriminate].
    cbn [bind] in H. apply (IH s1); [| exact H].
    apply ingest_one_ok in E as (t & _ & I & _).
    exact (insert_or_replace_unique _ _ _ U I).
Qed.

Lemma ingest_range ds : forall st st',
  ingest ds st = Ok st' ->
  Builder.z_min st' = Builder.z_min st /\ Builder.z_max st' = Builder.z_max st.
Proof.
  unfold ingest. induction ds as [| d ds IH]; intros st st' H.
  - injection H as <-. auto.
  - cbn [for_each] in H.
    destruct (ingest_one d st) as [s1 |] eqn:E; [| discriminate].
    cbn [bind] in H. apply IH in H as [H1 H2].
    apply ingest_one_ok in E as (t & _ & _ & M1 & M2). split; congruence.
Qed.

(** Drafts for other coordinates leave the row under a key alone. *)
Lemma ingest_keep z x y ds : forall st st',
  ingest ds st = Ok st' ->
  (forall d t, In d ds -> tile_of d = Ok t -> key_of t <> (z, x, y)) ->
  find (same_key z x y) (Builder.table st')
  = find (same_key z x y) (Builder.table st).
Proof.
  unfold ingest. induction ds as [| d ds IH]; intros st st' H N.
  - now injection H as <-.
  - cbn [for_each] in H.
    destruct (ingest_one d st) as [s1 |] eqn:E; [| discriminate].
    cbn [bind] in H.
    rewrite (IH s1 st' H) by (intros e u He; apply N; now right).
    apply ingest_one_ok in E as (t & T & I & _).
    apply (insert_or_replace_other _ _ _ _ _ _ I).
    apply (N d t); [now left | exact T].
Qed.

(** Every draft of a successful ingestion could be read and stored. *)
Lemma ingest_each ds : forall st st' d,
  ingest ds st = Ok st' -> In d ds -> exists t, tile_of d = Ok t.
Proof.
  unfold ingest. induction ds as [| a ds IH]; intros st st' d H Hin;
    [contradiction |].
  cbn [for_each] in H.
  destruct (ingest_one a st) as [s1 |] eqn:E; [| discriminate].
  cbn [bind] in H. destruct Hin as [<- | Hin].
  - apply ingest_one_ok in E as (t & T & _). now exists t.
  - exact (IH s1 st' d H Hin).
Qed.

(** Last write wins: the row found under the coordinate of a draft is the
    row of the last draft with that coordinate. *)
Lemma ingest_last pre d post st st' :
  ingest (pre ++ d :: post) st = Ok st' ->
  (forall e, In e post -> ~ same_coordinate d e) ->
  exists t, tile_of d = Ok t
    /\ find (same_key (zoom_level t) (tile_column t) (tile_row t))
            (Builder.table st') = Some t
    /\ int64 (zoom_level t) = true /\ int64 (tile_column t) = true
    /\ int64 (tile_row t) = true.
Proof.
  intros H N. unfold ingest in H.
  apply for_each_ok_app in H as (s1 & _ & H).
  cbn [for_each] in H.
  destruct (ingest_one d s1) as [s2 |] eqn:E; [| discriminate].
  cbn [bind] in H.
  apply ingest_one_ok in E as (t & T & I & _).
  exists t. split; [exact T |].
  split; [| exact (proj2 (insert_or_replace_ok _ _ _ I))].
  rewrite (ingest_keep _ _ _ post s2 st' H).
  - exact (insert_or_replace_find _ _ _ I).
  - intros e u He Te K. apply (N e He).
    apply (tile_of_same_key d e t u T Te). symmetry. exact K.
Qed.

End Ingest.

(** ** A run of the builder *)

Module Run.

Import Text.

Lemma lookup_write w p e : lookup (write w p e) p = Some e.
Proof. unfold write. simpl. now rewrite str_eqb_refl. Qed.

Lemma lookup_remove_other w p q :
  str_eqb q p = false -> lookup (remove w q) p = lookup w p.
Proof.
  intros N. unfold remove. induction w as [| [k e] w IH]; [reflexivity |].
  simpl. destruct (str_eqb k q) eqn:K; simpl.
  - apply str_eqb_eq in K. subst k. now rewrite N.
  - rewrite IH. reflexivity.
Qed.

(** A run that ends normally has walked the source folder and left a
    container with both relations at the destination. *)
Lemma done_inv w src dst fmt w' n lo hi :
  Builder.xyz_to_mbtiles w src dst fmt = Builder.Done w' n lo hi ->
  exists st,
    Builder.walk (source_entries w src) = Ok st
    /\ container_at w' dst
       = Some {| metadata := Some (Builder.metadata_rows dst fmt st);
                 tiles := Some (Builder.table st) |}
    /\ n = Builder.count st /\ lo = Builder.z_min st /\ hi = Builder.z_max st.
Proof.
  unfold Builder.xyz_to_mbtiles.
  destruct (os_path_isdir w src) eqn:D; [| discriminate]. cbn [negb].
  assert (S : forall w1,
             (if os_path_exists w dst then os_remove w dst else Ok w) = Ok w1 ->
             source_entries w1 src = source_entries w src).
  { intros w1. destruct (os_path_exists w dst); [| now intros [= <-]].
    unfold os_remove. destruct (str_eqb dst src) eqn:E.
    - apply str_eqb_eq in E. subst dst. unfold os_path_isdir in D.
      destruct (lookup w src) as [[[c | es] | d] |]; discriminate.
    - intros H. assert (W : w1 = remove w dst)
        by (destruct (lookup w dst) as [[[c | es] | d] |]; congruence).
      subst w1. unfold source_entries. now rewrite lookup_remove_other. }
  destruct (if os_path_exists w dst then os_remove w dst else Ok w)
    as [w1 |]; [| discriminate].
  rewrite (S w1 eq_refl).
  destruct (Builder.walk (source_entries w src)) as [st |]; [| discriminate].
  intros [= <- <- <- <-]. exists st. unfold container_at.
  rewrite lookup_write. auto.
Qed.

(** The drafts of a run that ends normally were all ingested, in order. *)
Lemma done_ingest w src dst fmt w' n lo hi :
  Builder.xyz_to_mbtiles w src dst fmt = Builder.Done w' n lo hi ->
  exists st,
    TileWalker.ingest (TileWalker.drafts (source_entries w src))
                      Builder.initial_state = Ok st
    /\ container_at w' dst
       = Some {| metadata :=
                   Some (Builder.metadata_rows dst fmt
                           (widen (TileWalker.zoom_names
                                     (source_entries w src)) st));
                 tiles := Some (Builder.table st) |}.
Proof.
  intros H. apply done_inv in H as (st & W & C & _).
  rewrite Refinement.walk_ingest in W.
  destruct (TileWalker.ingest _ Builder.initial_state) as [s |];
    [| discriminate].
  injection W as <-. now exists s.
Qed.

End Run.

(** ** The zoom range *)

Module Range.

Import TileWalker.

Lemma fold_min_spec l : forall a,
  fold_left Z.min l a <= a
  /\ (forall x, In x l -> fold_left Z.min l a <= x)
  /\ (fold_left Z.min l a = a \/ In (fold_left Z.min l a) l).
Proof.
  induction l as [| b l IH]; intros a.
  - simpl. repeat split; [lia | contradiction | now left].
  - cbn [fold_left]. destruct (IH (Z.min a b)) as (L & A & M).
    repeat split.
    + lia.
    + intros x [<- | Hx]; [lia | now apply A].
    + destruct M as [M | M]; [| right; now right].
      rewrite M. destruct (Z.min_spec a b) as [[_ ->] | [_ ->]];
        [now left | right; now left].
Qed.

Lemma fold_max_spec l : forall a,
  a <= fold_left Z.max l a
  /\ (forall x, In x l -> x <= fold_left Z.max l a)
  /\ (fold_left Z.max l a = a \/ In (fold_left Z.max l a) l).
Proof.
  induction l as [| b l IH]; intros a.
  - simpl. repeat split; [lia | contradiction | now left].
  - cbn [fold_left]. destruct (IH (Z.max a b)) as (L & A & M).
    repeat split.
    + lia.
    + intros x [<- | Hx]; [lia | now apply A].
    + destruct M as [M | M]; [| right; now right].
      rewrite M. destruct (Z.max_spec a b) as [[_ ->] | [_ ->]];
        [right; now left | now left].
Qed.

Lemma lowest_spec zs :
  zs <> [] -> In (lowest zs) zs /\ forall x, In x zs -> lowest zs <= x.
Proof.
  destruct zs as [| z r]; [congruence |]. intros _. unfold lowest.
  induction r as [| a r IH].
  - simpl. split; [now left | intros x [<- | []]; lia].
  - destruct IH as [I L]. cbn [fold_right]. split.
    + destruct (Z.min_spec a (fold_right Z.min z r)) as [[_ ->] | [_ ->]].
      * right. now left.
      * destruct I as [I | I]; [now left | right; now right].
    + intros x Hx.
      assert (C : x = a \/ In x (z :: r))
        by (destruct Hx as [Hx | [Hx | Hx]];
            [right; now left | left; now symmetry | right; now right]).
      destruct C as [-> | C]; [lia | specialize (L x C); lia].
Qed.

Lemma highest_spec zs :
  zs <> [] -> In (highest zs) zs /\ forall x, In x zs -> x <= highest zs.
Proof.
  destruct zs as [| z r]; [congruence |]. intros _. unfold highest.
  induction r as [| a r IH].
  - simpl. split; [now left | intros x [<- | []]; lia].
  - destruct IH as [I L]. cbn [fold_right]. split.
    + destruct (Z.max_spec a (fold_right Z.max z r)) as [[_ ->] | [_ ->]].
      * destruct I as [I | I]; [now left | right; now right].
      * right. now left.
    + intros x Hx.
      assert (C : x = a \/ In x (z :: r))
        by (destruct Hx as [Hx | [Hx | Hx]];
            [right; now left | left; now symmetry | right; now right]).
      destruct C as [-> | C]; [lia | specialize (L x C); lia].
Qed.

Lemma leaf_drafts_zoom z x item d :
  In d (leaf_drafts z x item) -> d_zoom d = z.
Proof.
  unfold leaf_drafts. destruct (leaf_row (fst item)); [| contradiction].
  intros [<- | []]. reflexivity.
Qed.

Lemma column_drafts_zoom z item d :
  In d (column_drafts z item) -> d_zoom d = z.
Proof.
  unfold column_drafts.
  destruct (isdigit (fst item) && os_path_isdir_node (snd item));
    [| contradiction].
  destruct (int_of_str (fst item)); [| contradiction].
  intros H. apply in_flat_map in H as (leaf & _ & H).
  exact (leaf_drafts_zoom _ _ _ _ H).
Qed.

Lemma zoom_drafts_name item d :
  In d (zoom_drafts item) -> In (d_zoom d) (zoom_of_name item).
Proof.
  unfold zoom_drafts, zoom_of_name.
  destruct (isdigit (fst item)); [| contradiction].
  destruct (os_path_isdir_node (snd item)); [| contradiction].
  cbn [andb]. destruct (int_of_str (fst item)) as [z |]; [| contradiction].
  intros H. apply in_flat_map in H as (col & _ & H).
  left. symmetry. exact (column_drafts_zoom _ _ _ H).
Qed.

(** The zoom of every draft is the number of a top-level entry. *)
Lemma drafts_zoom_names entries d :
  In d (drafts entries) -> In (d_zoom d) (zoom_names entries).
Proof.
  unfold drafts, zoom_names. intros H.
  apply in_flat_map in H as (item & I & H).
  apply in_flat_map. exists item. split; [exact I |].
  now apply zoom_drafts_name.
Qed.

Lemma zoom_names_nonneg entries z : In z (zoom_names entries) -> 0 <= z.
Proof.
  unfold zoom_names, zoom_of_name. intros H.
  apply in_flat_map in H as (item & _ & H).
  destruct (isdigit (fst item)) eqn:D; [| contradiction].
  destruct (Decimal.int_of_str_isdigit _ D) as (v & E & P).
  rewrite E in H. destruct H as [<- | []]. exact P.
Qed.

(** When every numbered top-level entry holds a tile, the range of the
    walk is the range of the zooms of the drafts. *)
Lemma range_of_drafts entries :
  let names := zoom_names entries in
  let zs := map d_zoom (drafts entries) in
  (forall z, In z names -> In z zs) ->
  lowest zs < 99 ->
  (if fold_left Z.min names 99 =? 99 then 0 else fold_left Z.min names 99)
  = lowest zs
  /\ (if fold_left Z.max names (-1) =? -1 then 0
      else fold_left Z.max names (-1))
     = highest zs.
Proof.
  intros names zs Sub Low.
  assert (Sup : forall z, In z zs -> In z names).
  { intros z Hz. apply in_map_iff in Hz as (d & <- & Hd).
    now apply drafts_zoom_names. }
  destruct (fold_min_spec names 99) as (A1 & A2 & A3).
  destruct (fold_max_spec names (-1)) as (B1 & B2 & B3).
  destruct zs as [| z0 r] eqn:E.
  - assert (N : names = []).
    { destruct names as [| a t]; [reflexivity |].
      elim (Sub a). now left. }
    rewrite N. split; reflexivity.
  - assert (NE : zs <> []) by (rewrite E; discriminate).
    rewrite <- E in *.
    destruct (lowest_spec zs NE) as [L1 L2].
    destruct (highest_spec zs NE) as [H1 H2].
    pose proof (A2 _ (Sup _ L1)) as Lo.
    pose proof (B2 _ (Sup _ H1)) as Hi.
    pose proof (zoom_names_nonneg entries _ (Sup _ H1)) as P.
    fold names in P.
    split.
    + destruct (Z.eqb_spec (fold_left Z.min names 99) 99) as [Q | Q]; [lia |].
      destruct A3 as [A3 | A3]; [contradiction |].
      specialize (L2 _ (Sub _ A3)). lia.
    + destruct (Z.eqb_spec (fold_left Z.max names (-1)) (-1)) as [Q | Q];
        [lia |].
      destruct B3 as [B3 | B3]; [contradiction |].
      specialize (H2 _ (Sub _ B3)). lia.
Qed.

(** The upper bound needs no limit on the zooms. *)
Lemma highest_of_drafts entries :
  let names := zoom_names entries in
  let zs := map d_zoom (drafts entries) in
  (forall z, In z names -> In z zs) ->
  (if fold_left Z.max names (-1) =? -1 then 0
   else fold_left Z.max names (-1))
  = highest zs.
Proof.
  intros names zs Sub.
  assert (Sup : forall z, In z zs -> In z names).
  { intros z Hz. apply in_map_iff in Hz as (d & <- & Hd).
    now apply drafts_zoom_names. }
  destruct (fold_max_spec names (-1)) as (B1 & B2 & B3).
  destruct zs as [| z0 r] eqn:E.
  - assert (N : names = []).
    { destruct names as [| a t]; [reflexivity |].
      elim (Sub a). now left. }
    now rewrite N.
  - assert (NE : zs <> []) by (rewrite E; discriminate).
    rewrite <- E in *.
    destruct (highest_spec zs NE) as [H1 H2].
    pose proof (B2 _ (Sup _ H1)) as Hi.
    pose proof (zoom_names_nonneg entries _ (Sup _ H1)) as P.
    fold names in P.
    destruct (Z.eqb_spec (fold_left Z.max names (-1)) (-1)) as [Q | Q];
      [lia |].
    destruct B3 as [B3 | B3]; [contradiction |].
    specialize (H2 _ (Sub _ B3)). lia.
Qed.

End Range.

(** ** Reading from a container *)

Module Serve.

Import Server Text Table.

Lemma container_lookup w p db :
  container_at w p = Some db -> lookup w p = Some (Store db).
Proof.
  unfold container_at. destruct (lookup w p) as [[n | d] |]; congruence.
Qed.

(** [get_tile] on a container with a tiles relation: the blob of the row
    under the flipped key, when the three numbers fit SQLite. *)
Lemma get_tile_store w path db tbl z x y :
  container_at w path = Some db -> tiles db = Some tbl -> 0 <= z ->
  get_tile w path z x y
  = (if int64 z && int64 x && int64 (Z.shiftl 1 z - 1 - y)
     then option_map tile_data
            (find (same_key z x (Z.shiftl 1 z - 1 - y)) tbl)
     else None, w).
Proof.
  intros C T P. apply container_lookup in C.
  unfold get_tile, get_tile_try, connect. rewrite C. cbn [bind].
  unfold tms_y, shl1. destruct (z <? 0) eqn:E; [apply Z.ltb_lt in E; lia |].
  cbn [bind]. unfold execute_select_tile. rewrite T. unfold select_tile_data.
  now destruct (int64 z && int64 x && int64 (Z.shiftl 1 z - 1 - y)).
Qed.

Lemma find_none {A} (f : A -> bool) l :
  (forall a, In a l -> f a = false) -> find f l = None.
Proof.
  induction l as [| a l IH]; [reflexivity |]. intros H. simpl.
  rewrite (H a (or_introl eq_refl)). apply IH. intros b Hb. apply H. now right.
Qed.

Lemma get_tile_absent w path z x y :
  absent w path z x y -> get_tile w path z x y = (None, w).
Proof.
  intros (db & tbl & C & T & N).
  destruct (Z.ltb_spec z 0) as [Neg | Pos].
  - apply container_lookup in C.
    unfold get_tile, get_tile_try, connect. rewrite C. cbn [bind].
    unfold tms_y, shl1. apply Z.ltb_lt in Neg. now rewrite Neg.
  - rewrite (get_tile_store _ _ _ _ _ _ _ C T Pos), (find_none _ _ N).
    now destruct (int64 z && int64 x && int64 (Z.shiftl 1 z - 1 - y)).
Qed.

Lemma get_metadata_unreadable w path :
  unreadable w path -> exists w', get_metadata w path = ([], w').
Proof.
  unfold unreadable, get_metadata, get_metadata_try, connect.
  destruct (lookup w path) as [[[[| c0 c] | es] | d] |]; intros U;
    cbn [bind execute_select_metadata];
    try (eexists; reflexivity).
  unfold execute_select_metadata. rewrite U. eexists. reflexivity.
Qed.

Lemma do_GET_metadata w path :
  do_GET w path (lit "/metadata")
  = (let (metadata, w') := get_metadata w path in
     (Ok (Sent {| status := 200; headers := metadata_headers;
                  body := Json metadata |}), w')).
Proof. reflexivity. Qed.

Lemma int_raises s e : int s = Raise e -> e = ValueError.
Proof. unfold int. destruct (int_of_str s); congruence. Qed.

Lemma parse_coordinates_raises p0 p1 p2 e :
  parse_coordinates p0 p1 p2 = Raise e -> e = ValueError.
Proof.
  unfold parse_coordinates.
  destruct (int p0) eqn:E0; cbn [bind]; [| intros [= <-]; eauto using int_raises].
  destruct (int p1) eqn:E1; cbn [bind]; [| intros [= <-]; eauto using int_raises].
  destruct (int (hd [] (split "."%char p2))) eqn:E2; cbn [bind];
    [discriminate | intros [= <-]; eauto using int_raises].
Qed.

End Serve.

(** * The claims *)

Import TileWalker.

(** ** Round trip *)

(** X22.  What the server answers for an ingested tile that was not
    overwritten later, under the coordinate of its path and any of the
    three extensions: its bytes with status 200 when there is at least one
    byte, and 404 when the file was empty. *)
Theorem round_trip w src dst fmt w' n lo hi pre d post B ext :
  Builder.xyz_to_mbtiles w src dst fmt = Builder.Done w' n lo hi ->
  drafts (source_entries w src) = pre ++ d :: post ->
  (forall e, In e post -> ~ same_coordinate d e) ->
  d_source d = File B ->
  In ext Server.tile_extensions ->
  Server.do_GET w' dst (Server.tile_url (d_zoom d) (d_column d) (d_row d) ext)
  = (Ok (match B with
         | [] => Server.send_error 404 (lit "Tile not found")
         | _ :: _ =>
             Server.Sent {| Server.status := 200;
                            Server.headers := Server.tile_headers;
                            Server.body := Server.Bytes B |}
         end), w').
Proof.
  intros Hrun Hd Hlast Hsrc Hext.
  apply Run.done_ingest in Hrun as (st & Hin & Hc).
  rewrite Hd in Hin.
  destruct (Ingest.ingest_last _ _ _ _ _ Hin Hlast)
    as (t & Ht & Hfind & I1 & I2 & I3).
  destruct (Ingest.tile_of_ok _ _ Ht) as (Pz & Ez & Ex & Er & Es).
  rewrite Hsrc in Es. injection Es as ->.
  rewrite Route.do_GET_tile_url by exact Hext.
  rewrite (Serve.get_tile_store _ _ _ _ _ _ _ Hc eq_refl Pz).
  rewrite <- Er, <- Ez, <- Ex, I1, I2, I3, Hfind. cbn [andb option_map].
  now destruct (tile_data t).
Qed.

(** C1, at the failing input.  The source holds the single file
    [0/0/0.png], of zero bytes.  The build stores it as row (0, 0, 0) with
    an empty blob; the request GET /0/0/0.png is then answered 404
    "Tile not found", because [if tile_data:] takes the empty blob for a
    miss. *)
Theorem empty_tile_answered_404 :
  let w' := Sample.built Sample.world_empty_tile (lit "png") in
  Builder.xyz_to_mbtiles Sample.world_empty_tile Sample.src Sample.dst
                         (lit "png")
  = Builder.Done w' 1 0 0
  /\ option_map tiles (container_at w' Sample.dst)
     = Some (Some [ {| zoom_level := 0; tile_column := 0; tile_row := 0;
                       tile_data := [] |} ])
  /\ Server.do_GET w' Sample.dst (Server.tile_url 0 0 0 (lit "png"))
     = (Ok (Server.send_error 404 (lit "Tile not found")), w').
Proof. vm_compute. repeat split. Qed.

(** ** The conversion of rows *)

(** C2 as stated fails: for zoom 0 the only row in range is 0, yet the
    conversion of row 5 succeeds in the builder and in the server, with
    result -5; no error is raised. *)
Lemma conversion_has_no_range_check :
  ~ (0 <= 5 <= 2 ^ 0 - 1)
  /\ Builder.y_tms 0 5 = Ok (-5)
  /\ Server.tms_y 0 5 = Ok (-5)
  /\ ~ (exists e, Builder.y_tms 0 5 = Raise e)
  /\ ~ (exists e, Server.tms_y 0 5 = Raise e).
Proof.
  repeat split; try reflexivity.
  - simpl. lia.
  - intros [e H]. discriminate H.
  - intros [e H]. discriminate H.
Qed.

(** C2, amended.  For every zoom [z >= 0] and every integer row, in range
    or not, the conversion of the builder and that of the server succeed
    and return [(1 << z) - 1 - row]; the result is in [0, 2^z - 1] exactly
    when the row is. *)
Theorem conversion_total z row :
  0 <= z ->
  Builder.y_tms z row = Ok (Z.shiftl 1 z - 1 - row)
  /\ Server.tms_y z row = Ok (Z.shiftl 1 z - 1 - row)
  /\ (0 <= Z.shiftl 1 z - 1 - row <= 2 ^ z - 1 <-> 0 <= row <= 2 ^ z - 1).
Proof.
  intros P. unfold Builder.y_tms, Server.tms_y, shl1.
  destruct (z <? 0) eqn:E; [apply Z.ltb_lt in E; lia |].
  rewrite Z.shiftl_1_l. cbn [bind]. repeat split; lia.
Qed.

Lemma conversion_total_witness :
  Builder.y_tms 2 1 = Ok (Z.shiftl 1 2 - 1 - 1)
  /\ Server.tms_y 2 1 = Ok (Z.shiftl 1 2 - 1 - 1)
  /\ (0 <= Z.shiftl 1 2 - 1 - 1 <= 2 ^ 2 - 1 <-> 0 <= 1 <= 2 ^ 2 - 1).
Proof. apply (conversion_total 2 1). lia. Defined.

(** C3.  For every zoom [z >= 0] and every row [r] of [0, 2^z - 1], the
    conversion of the builder gives a row of the same interval, and
    converting that row again, in the server or in the builder, gives [r]
    back. *)
Theorem conversion_involutive z r :
  0 <= z -> 0 <= r <= 2 ^ z - 1 ->
  exists r',
    Builder.y_tms z r = Ok r'
    /\ 0 <= r' <= 2 ^ z - 1
    /\ Server.tms_y z r' = Ok r
    /\ Builder.y_tms z r' = Ok r.
Proof.
  intros P R. exists (Z.shiftl 1 z - 1 - r).
  unfold Builder.y_tms, Server.tms_y, shl1.
  destruct (z <? 0) eqn:E; [apply Z.ltb_lt in E; lia |].
  rewrite Z.shiftl_1_l. cbn [bind].
  repeat split; try lia; f_equal; lia.
Qed.

Lemma conversion_involutive_witness :
  exists r',
    Builder.y_tms 2 1 = Ok r'
    /\ 0 <= r' <= 2 ^ 2 - 1
    /\ Server.tms_y 2 r' = Ok 1
    /\ Builder.y_tms 2 r' = Ok 1.
Proof. apply (conversion_involutive 2 1); simpl; lia. Defined.

(** ** Uniqueness and last write wins *)

(** C4.  After a build that ends normally the index of [tiles] is unique;
    when two drafts share a coordinate and the second is the last draft for
    it, the relation holds exactly one row under that coordinate, with the
    bytes of the second.  Every write keeps the index unique. *)
Theorem last_write_wins w src dst fmt w' n lo hi :
  Builder.xyz_to_mbtiles w src dst fmt = Builder.Done w' n lo hi ->
  (exists db tbl,
      container_at w' dst = Some db /\ tiles db = Some tbl
      /\ unique_keys tbl
      /\ forall pre d1 mid d2 post B1 B2,
          drafts (source_entries w src) = pre ++ d1 :: mid ++ d2 :: post ->
          same_coordinate d1 d2 ->
          d_source d1 = File B1 -> d_source d2 = File B2 ->
          (forall e, In e post -> ~ same_coordinate d2 e) ->
          rows_at (d_zoom d2) (d_column d2)
                  (Z.shiftl 1 (d_zoom d2) - 1 - d_row d2) tbl
          = [ {| zoom_level := d_zoom d2; tile_column := d_column d2;
                 tile_row := Z.shiftl 1 (d_zoom d2) - 1 - d_row d2;
                 tile_data := B2 |} ])
  /\ unique_keys []
  /\ (forall t tbl0 tbl1,
         unique_keys tbl0 -> insert_or_replace t tbl0 = Ok tbl1 ->
         unique_keys tbl1
         /\ rows_at (zoom_level t) (tile_column t) (tile_row t) tbl1 = [t]).
Proof.
  intros Hrun. split; [| split].
  - apply Run.done_ingest in Hrun as (st & Hin & Hc).
    assert (U : unique_keys (Builder.table st)).
    { refine (Ingest.ingest_unique _ Builder.initial_state st _ Hin).
      constructor. }
    eexists. exists (Builder.table st).
    split; [exact Hc |]. split; [reflexivity |]. split; [exact U |].
    intros pre d1 mid d2 post B1 B2 Hd _ _ H2 Hlast.
    replace (pre ++ d1 :: mid ++ d2 :: post)
      with ((pre ++ d1 :: mid) ++ d2 :: post) in Hd
      by (rewrite <- app_assoc; reflexivity).
    rewrite Hd in Hin.
    destruct (Ingest.ingest_last _ _ _ _ _ Hin Hlast) as (t & Ht & Hfind & _).
    destruct (Ingest.tile_of_ok _ _ Ht) as (_ & Ez & Ex & Er & Es).
    rewrite H2 in Es. injection Es as ->.
    rewrite <- Er, <- Ez, <- Ex.
    rewrite (Table.unique_rows_at _ _ _ _ _ U Hfind).
    now destruct t.
  - constructor.
  - intros t tbl0 tbl1 U I.
    pose proof (Table.insert_or_replace_unique _ _ _ U I) as U1.
    split; [exact U1 |].
    exact (Table.unique_rows_at _ _ _ _ _ U1
             (Table.insert_or_replace_find _ _ _ I)).
Qed.

Lemma last_write_wins_witness :
  exists tbl,
    option_map tiles (container_at (Sample.built Sample.world_twice (lit "png"))
                                   Sample.dst) = Some (Some tbl)
    /\ unique_keys tbl
    /\ rows_at 2 3 2 tbl
       = [ {| zoom_level := 2; tile_column := 3; tile_row := 2;
              tile_data := Sample.b "second" |} ].
Proof.
  assert (E : Builder.xyz_to_mbtiles Sample.world_twice Sample.src Sample.dst
                (lit "png")
              = Builder.Done (Sample.built Sample.world_twice (lit "png"))
                             2 2 2)
    by (vm_compute; reflexivity).
  destruct (last_write_wins _ _ _ _ _ _ _ _ E)
    as ((db & tbl & C & T & U & L) & _).
  exists tbl. rewrite C. cbn [option_map]. rewrite T.
  split; [reflexivity |]. split; [exact U |].
  apply (L [] {| d_zoom := 2; d_column := 3; d_row := 1;
                 d_source := File (Sample.b "first") |}
           [] {| d_zoom := 2; d_column := 3; d_row := 1;
                 d_source := File (Sample.b "second") |}
           [] (Sample.b "first") (Sample.b "second")).
  - vm_compute. reflexivity.
  - repeat split.
  - reflexivity.
  - reflexivity.
  - intros e [].
Defined.

(** ** Metadata *)

(** C5, at the failing inputs.  A source whose only entry is a regular
    file named [5], and a source whose only entry is a folder [7] holding
    an empty column, yield no draft and no row; the builds end normally and
    write minzoom and maxzoom "5", respectively "7", where the claim
    says "0". *)
Theorem numbered_entry_without_tiles :
  (drafts (source_entries Sample.world_numbered_file Sample.src) = []
   /\ exists w' db,
       Builder.xyz_to_mbtiles Sample.world_numbered_file Sample.src
                              Sample.dst (lit "png")
       = Builder.Done w' 0 5 5
       /\ container_at w' Sample.dst = Some db
       /\ tiles db = Some []
       /\ option_map (value_of (lit "minzoom")) (metadata db)
          = Some (Some (lit "5"))
       /\ option_map (value_of (lit "maxzoom")) (metadata db)
          = Some (Some (lit "5")))
  /\ (drafts (source_entries Sample.world_numbered_folder Sample.src) = []
      /\ exists w' db,
          Builder.xyz_to_mbtiles Sample.world_numbered_folder Sample.src
                                 Sample.dst (lit "png")
          = Builder.Done w' 0 7 7
          /\ container_at w' Sample.dst = Some db
          /\ tiles db = Some []
          /\ option_map (value_of (lit "minzoom")) (metadata db)
             = Some (Some (lit "7"))
          /\ option_map (value_of (lit "maxzoom")) (metadata db)
             = Some (Some (lit "7"))).
Proof.
  split; (split; [reflexivity |]); do 2 eexists;
    (split; [vm_compute; reflexivity |]);
    (split; [vm_compute; reflexivity |]); repeat split.
Qed.

(** C6 as stated fails: the source holds one tile, at zoom 100.  The build
    ends normally and stores it, so the zooms seen are 100 to 100, but the
    minzoom written is "0": the starting value 99 of [z_min] is below every
    zoom seen, and 99 is written as 0. *)
Lemma minzoom_of_zoom_100 :
  exists w' db,
    Builder.xyz_to_mbtiles Sample.world_zoom_100 Sample.src Sample.dst
                           (lit "png")
    = Builder.Done w' 1 99 100
    /\ container_at w' Sample.dst = Some db
    /\ option_map (map zoom_level) (tiles db) = Some [100]
    /\ map d_zoom (drafts (source_entries Sample.world_zoom_100 Sample.src))
       = [100]
    /\ option_map (value_of (lit "minzoom")) (metadata db)
       = Some (Some (lit "0"))
    /\ option_map (value_of (lit "maxzoom")) (metadata db)
       = Some (Some (lit "100"))
    /\ str_of_int 100 <> lit "0".
Proof.
  do 2 eexists. split; [vm_compute; reflexivity |].
  split; [vm_compute; reflexivity |].
  repeat split; try (vm_compute; reflexivity).
  intro H. vm_compute in H. discriminate H.
Qed.

(** C6, amended.  After every build that ends normally the metadata
    relation holds exactly the eight rows below, in this order: the name
    is the base name of the destination, the format is the configured one
    in lower case (the configured one itself for png, jpg and jpeg), and
    minzoom and maxzoom are the decimal texts of the bounds of the zoom
    range the run reports, a lower bound of 99 and an upper bound of -1
    being written as 0.  When every numbered top-level entry contributed
    a tile, maxzoom is the highest zoom of the ingested tiles, and minzoom
    the lowest one provided it is below 99; both are 0 when no tile was
    ingested. *)
Theorem metadata_written w src dst fmt w' n lo hi :
  Builder.xyz_to_mbtiles w src dst fmt = Builder.Done w' n lo hi ->
  let zs := map d_zoom (drafts (source_entries w src)) in
  exists db,
    container_at w' dst = Some db
    /\ metadata db
       = Some [ (lit "name", basename dst);
                (lit "type", lit "baselayer");
                (lit "version", lit "1.0");
                (lit "description", lit "Packed from XYZ folder");
                (lit "format", lower fmt);
                (lit "minzoom", str_of_int (if lo =? 99 then 0 else lo));
                (lit "maxzoom", str_of_int (if hi =? -1 then 0 else hi));
                (lit "attribution", lit "") ]
    /\ (In fmt Builder.format_choices -> lower fmt = fmt)
    /\ ((forall z, In z (zoom_names (source_entries w src)) -> In z zs) ->
        (if hi =? -1 then 0 else hi) = highest zs
        /\ (lowest zs < 99 -> (if lo =? 99 then 0 else lo) = lowest zs)).
Proof.
  intros Hrun zs.
  pose proof (Run.done_inv _ _ _ _ _ _ _ _ Hrun) as (st & W & C & _ & -> & ->).
  apply Run.done_ingest in Hrun as (st0 & Hin & _).
  rewrite Refinement.walk_ingest, Hin in W. injection W as <-.
  destruct (Ingest.ingest_range _ _ _ Hin) as [Rmin Rmax].
  eexists. split; [exact C |]. split; [reflexivity |].
  split.
  - intros Hfmt. simpl in Hfmt.
    destruct Hfmt as [<- | [<- | [<- | []]]]; reflexivity.
  - intros Hall. unfold widen. cbn [Builder.z_min Builder.z_max].
    rewrite Rmin, Rmax.
    cbn [Builder.initial_state Builder.z_min Builder.z_max].
    split.
    + exact (Range.highest_of_drafts (source_entries w src) Hall).
    + intros Hlow.
      exact (proj1 (Range.range_of_drafts (source_entries w src) Hall Hlow)).
Qed.

Lemma metadata_written_witness :
  exists db,
    container_at (Sample.built Sample.world_twice (lit "jpg")) Sample.dst
    = Some db
    /\ metadata db
       = Some [ (lit "name", lit "map.mbtiles");
                (lit "type", lit "baselayer");
                (lit "version", lit "1.0");
                (lit "description", lit "Packed from XYZ folder");
                (lit "format", lit "jpg");
                (lit "minzoom", lit "2");
                (lit "maxzoom", lit "2");
                (lit "attribution", lit "") ]
    /\ highest (map d_zoom (drafts (source_entries Sample.world_twice
                                                   Sample.src))) = 2
    /\ lowest (map d_zoom (drafts (source_entries Sample.world_twice
                                                  Sample.src))) = 2.
Proof.
  assert (E : Builder.xyz_to_mbtiles Sample.world_twice Sample.src Sample.dst
                (lit "jpg")
              = Builder.Done (Sample.built Sample.world_twice (lit "jpg"))
                             2 2 2)
    by (vm_compute; reflexivity).
  destruct (metadata_written _ _ _ _ _ _ _ _ E) as (db & C & M & F & R).
  exists db. split; [exact C |]. split; [exact M |].
  destruct R as [Hi Lo].
  - intros z Hz. vm_compute in Hz |- *. tauto.
  - split; [now rewrite <- Hi |].
    rewrite <- Lo; [reflexivity |]. vm_compute. reflexivity.
Defined.

(** ** Replies *)

(** C7 as stated fails: a container built with [--format jpg] from the
    tile [0/0/0.jpg]; the request GET /0/0/0.jpg is answered 200 with
    Content-Type [image/png], not the type of the extension. *)
Lemma jpg_served_as_png :
  let w := Sample.built Sample.world_jpg (lit "jpg") in
  exists r,
    Server.do_GET w Sample.dst (Server.tile_url 0 0 0 (lit "jpg"))
    = (Ok (Server.Sent r), w)
    /\ Server.status r = 200
    /\ Server.body r = Server.Bytes (Sample.b "JPGDATA")
    /\ value_of (lit "Content-Type") (Server.headers r)
       = Some (lit "image/png")
    /\ value_of (lit "Content-Type") (Server.headers r)
       <> Some (content_type_of_ext (lit "jpg")).
Proof.
  eexists. split; [vm_compute; reflexivity |].
  repeat split. intro H. vm_compute in H. discriminate H.
Qed.

(** C7, amended.  Every 200 reply to a tile request, whatever the
    extension asked for, carries Content-Type [image/png] and the headers
    Access-Control-Allow-Origin [*], Access-Control-Allow-Methods [GET] and
    Access-Control-Allow-Headers [Content-Type]. *)
Theorem tile_reply_headers w path z x y ext r w' :
  In ext Server.tile_extensions ->
  Server.do_GET w path (Server.tile_url z x y ext) = (Ok (Server.Sent r), w') ->
  Server.status r = 200 ->
  Server.headers r = Server.tile_headers
  /\ value_of (lit "Content-Type") (Server.headers r) = Some (lit "image/png")
  /\ value_of (lit "Access-Control-Allow-Origin") (Server.headers r)
     = Some (lit "*")
  /\ value_of (lit "Access-Control-Allow-Methods") (Server.headers r)
     = Some (lit "GET")
  /\ value_of (lit "Access-Control-Allow-Headers") (Server.headers r)
     = Some (lit "Content-Type").
Proof.
  intros Hext Hget Hst. rewrite Route.do_GET_tile_url in Hget by exact Hext.
  destruct (Server.get_tile w path z x y) as [t w1].
  destruct (Server.truthy t).
  - injection Hget as <- _. cbn. repeat split.
  - injection Hget as <- _. discriminate Hst.
Qed.

Lemma tile_reply_headers_witness :
  value_of (lit "Content-Type") Server.tile_headers = Some (lit "image/png")
  /\ value_of (lit "Access-Control-Allow-Origin") Server.tile_headers
     = Some (lit "*").
Proof.
  pose (w := Sample.built Sample.world_jpg (lit "jpg")).
  pose (r := {| Server.status := 200; Server.headers := Server.tile_headers;
                Server.body := Server.Bytes (Sample.b "JPGDATA") |}).
  assert (G : Server.do_GET w Sample.dst (Server.tile_url 0 0 0 (lit "jpeg"))
              = (Ok (Server.Sent r), w))
    by (vm_compute; reflexivity).
  assert (E : In (lit "jpeg") Server.tile_extensions)
    by (vm_compute; tauto).
  destruct (tile_reply_headers w Sample.dst 0 0 0 (lit "jpeg") r w E G eq_refl)
    as (_ & H1 & H2 & _).
  exact (conj H1 H2).
Defined.

(** C8.  The two reads of the store never raise: whatever exception
    their [try] block ends with, [get_tile] returns [None] and
    [get_metadata] the empty mapping, the three numbers given to
    [get_tile] being within the digit limit of [int()], as those of a
    request are.  For such a coordinate, when the container has no row
    for it, [get_tile] returns [None] and the request for it is answered
    404.  When the store is missing or cannot be read, [get_metadata]
    returns the empty mapping, and the request for [/metadata] is
    answered 200 with the empty object. *)
Theorem read_path_never_raises w path :
  (forall z x y e w1,
      within_digit_limit z -> within_digit_limit x ->
      within_digit_limit y ->
      Server.get_tile_try w path z x y = (Raise e, w1) ->
      Server.get_tile w path z x y = (None, w1))
  /\ (forall e w1,
         Server.get_metadata_try w path = (Raise e, w1) ->
         Server.get_metadata w path = ([], w1))
  /\ (forall z x y,
         within_digit_limit z -> within_digit_limit x ->
         within_digit_limit y ->
         absent w path z x y ->
         Server.get_tile w path z x y = (None, w)
         /\ forall ext,
              In ext Server.tile_extensions ->
              Server.do_GET w path (Server.tile_url z x y ext)
              = (Ok (Server.send_error 404 (lit "Tile not found")), w))
  /\ (unreadable w path ->
      exists w',
        Server.get_metadata w path = ([], w')
        /\ Server.do_GET w path (lit "/metadata")
           = (Ok (Server.Sent {| Server.status := 200;
                                 Server.headers := Server.metadata_headers;
                                 Server.body := Server.Json [] |}), w')).
Proof.
  split; [| split; [| split]].
  - intros z x y e w1 _ _ _ H. unfold Server.get_tile. now rewrite H.
  - intros e w1 H. unfold Server.get_metadata. now rewrite H.
  - intros z x y _ _ _ A.
    pose proof (Serve.get_tile_absent _ _ _ _ _ A) as G.
    split; [exact G |]. intros ext Hext.
    rewrite Route.do_GET_tile_url by exact Hext. now rewrite G.
  - intros U. destruct (Serve.get_metadata_unreadable _ _ U) as [w' G].
    exists w'. split; [exact G |].
    rewrite Serve.do_GET_metadata. now rewrite G.
Qed.

Lemma read_path_never_raises_witness :
  Server.get_tile (Sample.built Sample.world_a (lit "png")) Sample.dst
                  (-1) 0 0
  = (None, Sample.built Sample.world_a (lit "png"))
  /\ Server.do_GET (Sample.built Sample.world_a (lit "png")) Sample.dst
                   (Server.tile_url 9 9 9 (lit "png"))
     = (Ok (Server.send_error 404 (lit "Tile not found")),
        Sample.built Sample.world_a (lit "png"))
  /\ exists w',
      Server.do_GET [] Sample.dst (lit "/metadata")
      = (Ok (Server.Sent {| Server.status := 200;
                            Server.headers := Server.metadata_headers;
                            Server.body := Server.Json [] |}), w').
Proof.
  split; [| split].
  - destruct (read_path_never_raises
                (Sample.built Sample.world_a (lit "png")) Sample.dst)
      as (T & _).
    apply (T (-1) 0 0 ValueError);
      try (apply Nat.leb_le; vm_compute; reflexivity).
    vm_compute. reflexivity.
  - destruct (read_path_never_raises
                (Sample.built Sample.world_a (lit "png")) Sample.dst)
      as (_ & _ & A & _).
    refine (proj2 (A 9 9 9 _ _ _ _) (lit "png") _);
      try (apply Nat.leb_le; vm_compute; reflexivity).
    + eexists. eexists. split; [vm_compute; reflexivity |].
      split; [reflexivity |].
      intros t [<- | []]. reflexivity.
    + vm_compute. tauto.
  - destruct (read_path_never_raises [] Sample.dst) as (_ & _ & _ & M).
    destruct (M I) as (w' & _ & G). exists w'. exact G.
Defined.

(** C9.  When the source path is not a folder the run ends at once with
    exit status 1, and the world is the one it started in: the destination
    is neither removed nor created, and no container is changed. *)
Theorem bad_source_exits_first w src dst fmt :
  os_path_isdir w src = false ->
  Builder.xyz_to_mbtiles w src dst fmt
  = Builder.Exit 1 (lit "Source folder not found: " ++ src) w
  /\ 1 <> 0.
Proof.
  intros H. unfold Builder.xyz_to_mbtiles. rewrite H.
  split; [reflexivity | discriminate].
Qed.

Lemma bad_source_exits_first_witness :
  Builder.xyz_to_mbtiles Sample.world_no_source Sample.src Sample.dst
                         (lit "png")
  = Builder.Exit 1 (lit "Source folder not found: " ++ Sample.src)
                 Sample.world_no_source
  /\ 1 <> 0.
Proof.
  apply (bad_source_exits_first Sample.world_no_source Sample.src Sample.dst
                                (lit "png")).
  reflexivity.
Defined.

(** C10.  For all integers [z], [x], [y] and two extensions among png,
    jpg, jpeg, the requests [/z/x/y.e1] and [/z/x/y.e2] get the same
    reply, status, headers and body, and leave the same world. *)
Theorem extension_ignored w path z x y e1 e2 :
  In e1 Server.tile_extensions ->
  In e2 Server.tile_extensions ->
  Server.do_GET w path (Server.tile_url z x y e1)
  = Server.do_GET w path (Server.tile_url z x y e2).
Proof.
  intros H1 H2. now rewrite !Route.do_GET_tile_url by assumption.
Qed.

Lemma extension_ignored_witness :
  Server.do_GET (Sample.built Sample.world_a (lit "png")) Sample.dst
                (Server.tile_url 0 0 0 (lit "png"))
  = Server.do_GET (Sample.built Sample.world_a (lit "png")) Sample.dst
                  (Server.tile_url 0 0 0 (lit "jpeg")).
Proof.
  apply (extension_ignored _ _ 0 0 0 (lit "png") (lit "jpeg"));
    vm_compute; tauto.
Defined.

(** * Further properties of the builder *)

Module Sorting.

Section Keyed.

Context {A : Type} (key : A -> Z).


Lemma In_insert_sorted a x l :
  In x (insert_sorted key a l) <-> x = a \/ In x l.
Proof.
  induction l as [| b l IH]; simpl.
  - intuition.
  - destruct (key a <=? key b); simpl; [intuition |].
    rewrite IH. intuition.
Qed.

(** Sorting neither drops nor invents an entry. *)
Lemma In_sorted x l : In x (sorted key l) <-> In x l.
Proof.
  unfold sorted. induction l as [| a l IH]; simpl; [tauto |].
  rewrite In_insert_sorted, IH. intuition.
Qed.



End Keyed.



End Sorting.

Module Walk.

Import TileWalker Loop.

Lemma leaf_row_spec y_file y :
  leaf_row y_file = Some y
  <-> (endswith y_file (lit ".png") = true
       \/ endswith y_file (lit ".jpg") = true
       \/ endswith y_file (lit ".jpeg") = true)
      /\ isdigit (fst (splitext y_file)) = true
      /\ int_of_str (fst (splitext y_file)) = Some y.
Proof.
  unfold leaf_row.
  destruct (endswith y_file (lit ".png")), (endswith y_file (lit ".jpg")),
    (endswith y_file (lit ".jpeg")); cbn [orb];
    destruct (isdigit (fst (splitext y_file))); intuition congruence.
Qed.



Lemma ingest_one_count d st st' :
  ingest_one d st = Ok st' -> Builder.count st' = Builder.count st + 1.
Proof.
  unfold ingest_one.
  destruct (Builder.y_tms (d_zoom d) (d_row d)); [| discriminate].
  destruct (open_rb (d_source d)); [| discriminate].
  cbn [bind].
  match goal with
  | |- context [insert_or_replace ?t ?tb] =>
      destruct (insert_or_replace t tb); [| discriminate]
  end.
  cbn [bind]. now intros [= <-].
Qed.

Lemma ingest_count ds : forall st st',
  ingest ds st = Ok st' ->
  Builder.count st' = Builder.count st + Z.of_nat (List.length ds)
  /\ (List.length (Builder.table st')
      <= List.length (Builder.table st) + List.length ds)%nat.
Proof.
  unfold ingest. induction ds as [| d ds IH]; intros st st' H.
  - injection H as <-. cbn [List.length]. split; lia.
  - cbn [for_each] in H.
    destruct (ingest_one d st) as [s1 |] eqn:E; [| discriminate].
    cbn [bind] in H. destruct (IH _ _ H) as [C L].
    pose proof (ingest_one_count _ _ _ E) as C1.
    apply Ingest.ingest_one_ok in E as (t & _ & I & _).
    apply Table.insert_or_replace_ok in I as (Eq & _).
    rewrite Eq, length_app in L. cbn [List.length] in L |- *.
    pose proof (filter_length_le
                  (fun r => negb (same_key (zoom_level t) (tile_column t)
                                           (tile_row t) r))
                  (Builder.table st)) as Fl.
    split; lia.
Qed.

Lemma ingest_rows ds : forall st st' t,
  ingest ds st = Ok st' ->
  In t (Builder.table st') ->
  In t (Builder.table st) \/ exists d, In d ds /\ tile_of d = Ok t.
Proof.
  unfold ingest. induction ds as [| d ds IH]; intros st st' t H Ht.
  - injection H as <-. now left.
  - cbn [for_each] in H.
    destruct (ingest_one d st) as [s1 |] eqn:E; [| discriminate].
    cbn [bind] in H. destruct (IH _ _ _ H Ht) as [In1 | (e & He & Te)].
    + apply Ingest.ingest_one_ok in E as (u & Tu & I & _).
      apply Table.insert_or_replace_ok in I as (Eq & _).
      rewrite Eq in In1. apply in_app_iff in In1 as [In1 | [<- | []]].
      * left. now apply filter_In in In1.
      * right. exists d. split; [now left | exact Tu].
    + right. exists e. split; [now right | exact Te].
Qed.

Lemma ingest_succeeds ds :
  (forall d, In d ds ->
     0 <= d_zoom d
     /\ (exists B, d_source d = File B)
     /\ int64 (d_zoom d) && int64 (d_column d)
        && int64 (Z.shiftl 1 (d_zoom d) - 1 - d_row d) = true) ->
  forall st, exists st', ingest ds st = Ok st'.
Proof.
  unfold ingest. induction ds as [| d ds IH]; intros H st; [now exists st |].
  destruct (H d (or_introl eq_refl)) as (P & (B & S) & I).
  cbn [for_each]. unfold ingest_one at 1. unfold Builder.y_tms, shl1.
  destruct (d_zoom d <? 0) eqn:E; [apply Z.ltb_lt in E; lia |].
  cbn [bind]. rewrite S. cbn [open_rb bind].
  unfold insert_or_replace at 1.
  cbn [zoom_level tile_column tile_row]. rewrite I. cbn [bind].
  apply IH. intros e He. apply H. now right.
Qed.

(** Once a coordinate has a row, or a draft to come, it has a row at the
    end: an upsert never leaves its key empty. *)
Lemma ingest_present z x y ds : forall st st',
  ingest ds st = Ok st' ->
  find (same_key z x y) (Builder.table st) <> None
  \/ (exists d t, In d ds /\ tile_of d = Ok t /\ key_of t = (z, x, y)) ->
  find (same_key z x y) (Builder.table st') <> None.
Proof.
  unfold ingest. induction ds as [| a ds IH]; intros st st' H C.
  - injection H as <-. destruct C as [C | (d & t & [] & _)]. exact C.
  - cbn [for_each] in H.
    destruct (ingest_one a st) as [s1 |] eqn:E; [| discriminate].
    cbn [bind] in H. apply (IH s1 st' H).
    apply Ingest.ingest_one_ok in E as (u & Tu & I & _).
    destruct (same_key z x y u) eqn:K.
    + left. apply Table.same_key_spec in K. unfold key_of in K.
      injection K as <- <- <-.
      rewrite (Table.insert_or_replace_find _ _ _ I). discriminate.
    + apply Table.same_key_false in K.
      destruct C as [C | (d & t & [<- | Hd] & Td & Kt)].
      * left. now rewrite (Table.insert_or_replace_other _ _ _ _ _ _ I K).
      * congruence.
      * right. exists d, t. auto.
Qed.

Lemma tile_of_key d t : tile_of d = Ok t -> key_of t = flipped (coordinate d).
Proof.
  intros H. apply Ingest.tile_of_ok in H as (_ & Ez & Ex & Er & _).
  unfold key_of, flipped, coordinate. now rewrite Ez, Ex, Er.
Qed.

Lemma flipped_injective c1 c2 : flipped c1 = flipped c2 -> c1 = c2.
Proof.
  destruct c1 as [[z1 x1] y1], c2 as [[z2 x2] y2]. unfold flipped.
  intros [= -> -> H]. f_equal. lia.
Qed.

Lemma NoDup_map_injective {A B} (f : A -> B) l :
  (forall a b, f a = f b -> a = b) -> NoDup l -> NoDup (map f l).
Proof.
  intros Inj. induction 1 as [| a l Hn Hd IH]; cbn [map]; constructor;
    [| exact IH].
  intro Hin. apply in_map_iff in Hin as (b & E & Hb).
  apply Inj in E. now subst b.
Qed.

(** The keys of the relation after an ingestion from nothing are the
    flipped coordinates of the drafts, each once. *)
Lemma ingest_keys ds st :
  ingest ds Builder.initial_state = Ok st ->
  unique_keys (Builder.table st)
  /\ forall k, In k (map key_of (Builder.table st))
               <-> In k (map flipped (map coordinate ds)).
Proof.
  intros H. split.
  - refine (Ingest.ingest_unique _ Builder.initial_state st _ H). constructor.
  - intros k. split.
    + intros Hk. apply in_map_iff in Hk as (t & <- & Ht).
      destruct (ingest_rows _ _ _ _ H Ht) as [[] | (d & Hd & Td)].
      rewrite (tile_of_key _ _ Td). now apply in_map, in_map.
    + intros Hk. apply in_map_iff in Hk as (c & <- & Hc).
      apply in_map_iff in Hc as (d & <- & Hd).
      destruct (Ingest.ingest_each _ _ _ d H Hd) as [t Td].
      rewrite <- (tile_of_key _ _ Td).
      destruct (key_of t) as [[z x] y] eqn:K.
      assert (F : find (same_key z x y) (Builder.table st) <> None).
      { apply (ingest_present z x y ds Builder.initial_state st H).
        right. exists d, t. auto. }
      destruct (find (same_key z x y) (Builder.table st)) as [u |] eqn:Fu;
        [| congruence].
      apply find_some in Fu as [Hu Ku]. apply Table.same_key_spec in Ku.
      rewrite <- Ku. now apply in_map.
Qed.

Lemma drafts_zoom_nonneg entries d : In d (drafts entries) -> 0 <= d_zoom d.
Proof.
  intros H. apply (Range.zoom_names_nonneg entries).
  now apply Range.drafts_zoom_names.
Qed.

End Walk.

Module Rerun.

Import Text.

Lemma remove_remove w p : remove (remove w p) p = remove w p.
Proof.
  unfold remove. induction w as [| [q e] w IH]; [reflexivity |].
  simpl. destruct (str_eqb q p) eqn:E; simpl; [exact IH |].
  rewrite E. cbn [negb]. now rewrite IH.
Qed.

Lemma str_eqb_sym a b : str_eqb a b = str_eqb b a.
Proof.
  destruct (str_eqb a b) eqn:E1, (str_eqb b a) eqn:E2; try reflexivity.
  - apply str_eqb_eq in E1. subst. now rewrite str_eqb_refl in E2.
  - apply str_eqb_eq in E2. subst. now rewrite str_eqb_refl in E1.
Qed.

Lemma lookup_write_other w p q e :
  str_eqb p q = false -> lookup (write w p e) q = lookup w q.
Proof.
  intros N. unfold write. cbn [lookup]. rewrite N.
  now apply Run.lookup_remove_other.
Qed.

Lemma remove_write w p e : remove (write w p e) p = remove w p.
Proof.
  unfold write. unfold remove at 1. cbn [filter fst].
  rewrite str_eqb_refl. cbn [negb]. apply remove_remove.
Qed.

Lemma write_remove w p e : write (remove w p) p e = write w p e.
Proof. unfold write. now rewrite remove_remove. Qed.

(** A run over a source folder, towards a destination that is no folder:
    the walk decides, and the destination is rewritten from scratch. *)
Lemma run_shape w src dst fmt :
  os_path_isdir w src = true ->
  (forall es, lookup w dst <> Some (Plain (Folder es))) ->
  Builder.xyz_to_mbtiles w src dst fmt
  = match Builder.walk (source_entries w src) with
    | Raise e => Builder.Crashed e
    | Ok st =>
        Builder.Done
          (write w dst
             (Store {| metadata := Some (Builder.metadata_rows dst fmt st);
                       tiles := Some (Builder.table st) |}))
          (Builder.count st) (Builder.z_min st) (Builder.z_max st)
    end.
Proof.
  intros D N. unfold Builder.xyz_to_mbtiles. rewrite D. cbn [negb].
  assert (Ne : str_eqb dst src = false).
  { destruct (str_eqb dst src) eqn:E; [| reflexivity].
    apply str_eqb_eq in E. subst dst. unfold os_path_isdir in D.
    destruct (lookup w src) as [[[c | es] | d] |]; try discriminate.
    now elim (N es). }
  unfold os_path_exists, os_remove.
  destruct (lookup w dst) as [[[c | es] | d] |] eqn:L;
    try (now elim (N es));
    try (unfold source_entries; rewrite Run.lookup_remove_other by exact Ne;
         fold (source_entries w src);
         destruct (Builder.walk (source_entries w src));
         [rewrite write_remove |]; reflexivity).
  destruct (Builder.walk (source_entries w src)); reflexivity.
Qed.

Lemma done_conditions w src dst fmt w' n lo hi :
  Builder.xyz_to_mbtiles w src dst fmt = Builder.Done w' n lo hi ->
  os_path_isdir w src = true
  /\ forall es, lookup w dst <> Some (Plain (Folder es)).
Proof.
  unfold Builder.xyz_to_mbtiles.
  destruct (os_path_isdir w src); [| discriminate]. cbn [negb].
  intros H. split; [reflexivity |]. intros es L.
  unfold os_path_exists, os_remove in H. rewrite L in H. discriminate H.
Qed.

End Rerun.

Import TileWalker.

(** X1.  The three nested loops of [xyz_to_mbtiles] do what a walker
    followed by a store would do: they ingest the drafts of the source in
    the order of the walk and stop at the first exception; the zoom range
    they end with is (99, -1) widened by the number of every digit-named
    top-level entry. *)
Theorem loops_ingest_drafts entries :
  Builder.walk entries
  = bind (ingest (drafts entries) Builder.initial_state)
         (fun st => Ok (widen (zoom_names entries) st)).
Proof.
  unfold Builder.walk, drafts, zoom_names.
  apply Refinement.z_loop_ingest.
Qed.

(** The drafts of a source are its tile files. *)
Lemma drafts_spec entries d :
  In d (drafts entries)
  <-> exists z_name columns x_name leaves y_file,
      In (z_name, Folder columns) entries
      /\ isdigit z_name = true /\ int_of_str z_name = Some (d_zoom d)
      /\ In (x_name, Folder leaves) columns
      /\ isdigit x_name = true /\ int_of_str x_name = Some (d_column d)
      /\ In (y_file, d_source d) leaves
      /\ (endswith y_file (lit ".png") = true
          \/ endswith y_file (lit ".jpg") = true
          \/ endswith y_file (lit ".jpeg") = true)
      /\ isdigit (fst (splitext y_file)) = true
      /\ int_of_str (fst (splitext y_file)) = Some (d_row d).
Proof.
  unfold drafts. rewrite in_flat_map. split.
  - intros ([z_name z_dir] & Hi & Hd). apply Sorting.In_sorted in Hi.
    unfold zoom_drafts in Hd. cbn [fst snd] in Hd.
    destruct (isdigit z_name) eqn:Dz; [| contradiction].
    destruct z_dir as [c | columns]; [contradiction |]. cbn [andb] in Hd.
    cbn [os_path_isdir_node] in Hd.
    destruct (int_of_str z_name) as [z |] eqn:Ez; [| contradiction].
    cbn [os_listdir] in Hd.
    apply in_flat_map in Hd as ([x_name x_dir] & Hc & Hd).
    unfold column_drafts in Hd. cbn [fst snd] in Hd.
    destruct (isdigit x_name) eqn:Dx; [| contradiction].
    destruct x_dir as [c | leaves]; [contradiction |].
    cbn [andb os_path_isdir_node] in Hd.
    destruct (int_of_str x_name) as [x |] eqn:Ex; [| contradiction].
    cbn [os_listdir] in Hd.
    apply in_flat_map in Hd as ([y_file f] & Hl & Hd).
    unfold leaf_drafts in Hd. cbn [fst snd] in Hd.
    destruct (leaf_row y_file) as [y |] eqn:Ey; [| contradiction].
    destruct Hd as [<- | []]. cbn [d_zoom d_column d_row d_source].
    apply Walk.leaf_row_spec in Ey as (S & D & I).
    exists z_name, columns, x_name, leaves, y_file. repeat split; assumption.
  - intros (z_name & columns & x_name & leaves & y_file
            & Hz & Dz & Ez & Hx & Dx & Ex & Hy & S & Dy & Ey).
    exists (z_name, Folder columns). split; [now apply Sorting.In_sorted |].
    unfold zoom_drafts. cbn [fst snd os_path_isdir_node os_listdir].
    rewrite Dz, Ez. cbn [andb]. apply in_flat_map.
    exists (x_name, Folder leaves). split; [exact Hx |].
    unfold column_drafts. cbn [fst snd os_path_isdir_node os_listdir].
    rewrite Dx, Ex. cbn [andb]. apply in_flat_map.
    exists (y_file, d_source d). split; [exact Hy |].
    unfold leaf_drafts. cbn [fst snd].
    rewrite (proj2 (Walk.leaf_row_spec y_file (d_row d)) (conj S (conj Dy Ey))).
    left. now destruct d.
Qed.

(** X2.  No tile file is passed over: when the loops of [xyz_to_mbtiles]
    end normally, every leaf whose name ends in .png, .jpg or .jpeg and
    has a digit string before its extension, in a digit-named folder of
    a digit-named top-level folder, is a regular file and has a row in
    the relation under its zoom, its column and its flipped row. *)
Theorem every_tile_file_is_stored entries st z_name columns x_name leaves
        y_file f z x y :
  Builder.walk entries = Ok st ->
  In (z_name, Folder columns) entries ->
  isdigit z_name = true -> int_of_str z_name = Some z ->
  In (x_name, Folder leaves) columns ->
  isdigit x_name = true -> int_of_str x_name = Some x ->
  In (y_file, f) leaves ->
  endswith y_file (lit ".png") = true
  \/ endswith y_file (lit ".jpg") = true
  \/ endswith y_file (lit ".jpeg") = true ->
  isdigit (fst (splitext y_file)) = true ->
  int_of_str (fst (splitext y_file)) = Some y ->
  (exists B, f = File B)
  /\ exists t, In t (Builder.table st)
       /\ zoom_level t = z /\ tile_column t = x
       /\ tile_row t = 2 ^ z - 1 - y.
Proof.
  intros W Hz Dz Ez Hx Dx Ex Hy S Dy Ey.
  rewrite Refinement.walk_ingest in W.
  destruct (ingest (drafts entries) Builder.initial_state) as [st0 |] eqn:Hin;
    [| discriminate].
  injection W as <-. cbn [widen Builder.table].
  set (d := {| d_zoom := z; d_column := x; d_row := y; d_source := f |}).
  assert (Hd : In d (drafts entries)).
  { apply drafts_spec.
    exists z_name, columns, x_name, leaves, y_file. repeat split; assumption. }
  destruct (Ingest.ingest_each _ _ _ d Hin Hd) as [t Td].
  destruct (Ingest.tile_of_ok _ _ Td) as (_ & Tz & Tx & Tr & Ts).
  cbn [d d_zoom d_column d_row d_source] in Tz, Tx, Tr, Ts.
  split; [now exists (tile_data t) |].
  assert (F : find (same_key z x (Z.shiftl 1 z - 1 - y)) (Builder.table st0)
              <> None).
  { apply (Walk.ingest_present _ _ _ _ _ _ Hin). right. exists d, t.
    split; [exact Hd |]. split; [exact Td |].
    unfold key_of. now rewrite Tz, Tx, Tr. }
  destruct (find (same_key z x (Z.shiftl 1 z - 1 - y)) (Builder.table st0))
    as [u |] eqn:Fu; [| congruence].
  apply find_some in Fu as [Hu Ku]. apply Table.same_key_spec in Ku.
  unfold key_of in Ku. injection Ku as K1 K2 K3.
  rewrite Z.shiftl_1_l in K3. exists u. auto.
Qed.

Lemma every_tile_file_is_stored_witness :
  (exists B, File (Sample.b "second") = File B)
  /\ exists t,
      In t [ {| zoom_level := 2; tile_column := 3; tile_row := 2;
                tile_data := Sample.b "second" |} ]
      /\ zoom_level t = 2 /\ tile_column t = 3
      /\ tile_row t = 2 ^ 2 - 1 - 1.
Proof.
  apply (every_tile_file_is_stored
           (source_entries Sample.world_twice Sample.src)
           {| Builder.table := [ {| zoom_level := 2; tile_column := 3;
                                    tile_row := 2;
                                    tile_data := Sample.b "second" |} ];
              Builder.count := 2; Builder.z_min := 2; Builder.z_max := 2 |}
           (lit "2")
           [ (lit "3", Folder [ (lit "1.png", File (Sample.b "first"));
                                (lit "notes.txt", File (Sample.b "text"));
                                (lit "01.jpg", File (Sample.b "second")) ]) ]
           (lit "3")
           [ (lit "1.png", File (Sample.b "first"));
             (lit "notes.txt", File (Sample.b "text"));
             (lit "01.jpg", File (Sample.b "second")) ]
           (lit "01.jpg") (File (Sample.b "second")) 2 3 1);
    try (vm_compute; reflexivity); try (vm_compute; tauto).
Defined.

(** X3.  The number of tiles a run reports is the number of tile files it
    found, each insert counted, while the relation it leaves has one row
    for each distinct coordinate among them: as many rows as files when
    no two files stand for one coordinate, and fewer otherwise. *)
Theorem written_counts_every_draft w src dst fmt w' n lo hi :
  Builder.xyz_to_mbtiles w src dst fmt = Builder.Done w' n lo hi ->
  let ds := drafts (source_entries w src) in
  n = Z.of_nat (List.length ds)
  /\ exists db tbl,
      container_at w' dst = Some db /\ tiles db = Some tbl
      /\ (forall cs, NoDup cs ->
            (forall c, In c cs <-> In c (map coordinate ds)) ->
            List.length tbl = List.length cs)
      /\ (List.length tbl <= List.length ds)%nat
      /\ (List.length tbl = List.length ds <-> NoDup (map coordinate ds)).
Proof.
  intros Hrun ds. pose proof (Run.done_inv _ _ _ _ _ _ _ _ Hrun)
    as (st0 & W & _ & Hn & _).
  apply Run.done_ingest in Hrun as (st & Hin & Hc).
  rewrite Refinement.walk_ingest, Hin in W. injection W as <-.
  destruct (Walk.ingest_count _ _ _ Hin) as [C L].
  destruct (Walk.ingest_keys _ _ Hin) as [U K]. fold ds in K, L, C.
  split; [rewrite Hn; exact C |].
  eexists. exists (Builder.table st). split; [exact Hc |].
  split; [reflexivity |].
  assert (Count : forall cs, NoDup cs ->
            (forall c, In c cs <-> In c (map coordinate ds)) ->
            List.length (Builder.table st) = List.length cs).
  { intros cs Ncs Hcs.
    rewrite <- (length_map key_of (Builder.table st)),
      <- (length_map flipped cs).
    apply Nat.le_antisymm; apply NoDup_incl_length.
    - exact U.
    - intros k Hk. apply K in Hk. apply in_map_iff in Hk as (c & <- & Hc').
      apply in_map. now apply Hcs.
    - apply Walk.NoDup_map_injective; [apply Walk.flipped_injective | exact Ncs].
    - intros k Hk. apply in_map_iff in Hk as (c & <- & Hc').
      apply K. apply in_map. now apply Hcs. }
  split; [exact Count |]. split; [exact L |]. split.
  - intros E.
    apply (NoDup_map_inv flipped).
    apply (NoDup_incl_NoDup (l := map key_of (Builder.table st))).
    + exact U.
    + rewrite !length_map. fold ds. lia.
    + intros k Hk. now apply K.
  - intros N. rewrite (Count (map coordinate ds) N); [| tauto].
    now rewrite length_map.
Qed.

Lemma written_counts_every_draft_witness :
  2 = Z.of_nat (List.length (drafts (source_entries Sample.world_twice
                                                    Sample.src)))
  /\ exists db tbl,
      container_at (Sample.built Sample.world_twice (lit "png")) Sample.dst
      = Some db /\ tiles db = Some tbl
      /\ List.length tbl = 1%nat.
Proof.
  destruct (written_counts_every_draft Sample.world_twice Sample.src
              Sample.dst (lit "png")
              (Sample.built Sample.world_twice (lit "png")) 2 2 2)
    as (N & db & tbl & C & T & Count & _).
  - vm_compute. reflexivity.
  - split; [exact N |]. exists db, tbl. split; [exact C |].
    split; [exact T |].
    apply (Count [(2, 3, 1)]).
    + constructor; [intros [] | constructor].
    + intros c. vm_compute. tauto.
Defined.


(** X5.  What a normal end requires.  The run raises [SystemExit], with
    status 1 and the world untouched, exactly when the source is no
    folder.  It can end normally only if the source is a folder, the
    destination is not a folder, every tile-named leaf is a regular file,
    and the zoom, the column and the flipped row of every tile fit a
    signed 64-bit integer: a folder named like a tile, or one number out
    of that range, makes the whole run fail. *)
Theorem build_succeeds_only_if w src dst fmt :
  ((exists m, Builder.xyz_to_mbtiles w src dst fmt = Builder.Exit 1 m w)
   <-> os_path_isdir w src = false)
  /\ forall w' n lo hi,
      Builder.xyz_to_mbtiles w src dst fmt = Builder.Done w' n lo hi ->
      os_path_isdir w src = true
      /\ (forall es, lookup w dst <> Some (Plain (Folder es)))
      /\ forall d, In d (drafts (source_entries w src)) ->
           (exists B, d_source d = File B)
           /\ int64 (d_zoom d) && int64 (d_column d)
              && int64 (Z.shiftl 1 (d_zoom d) - 1 - d_row d) = true.
Proof.
  split.
  - split.
    + intros [m H]. unfold Builder.xyz_to_mbtiles in H.
      destruct (os_path_isdir w src); [| reflexivity]. cbn [negb] in H.
      destruct (if os_path_exists w dst then os_remove w dst else Ok w);
        [| discriminate].
      destruct (Builder.walk _); discriminate.
    + intros H. eexists. unfold Builder.xyz_to_mbtiles. now rewrite H.
  - intros w' n lo hi Hrun.
    destruct (Rerun.done_conditions _ _ _ _ _ _ _ _ Hrun) as [D N].
    split; [exact D |]. split; [exact N |].
    apply Run.done_ingest in Hrun as (st & Hin & _).
    intros d Hd. apply in_split in Hd as (pre & post & Hd).
    rewrite Hd in Hin. unfold ingest in Hin.
    apply Loop.for_each_ok_app in Hin as (s1 & _ & Hin).
    cbn [for_each] in Hin.
    destruct (ingest_one d s1) as [s2 |] eqn:E; [| discriminate].
    apply Ingest.ingest_one_ok in E as (t & T & I & _).
    apply Table.insert_or_replace_ok in I as (_ & I1 & I2 & I3).
    destruct (Ingest.tile_of_ok _ _ T) as (_ & Ez & Ex & Er & Es).
    split; [now exists (tile_data t) |].
    now rewrite <- Er, <- Ez, <- Ex, I1, I2, I3.
Qed.

(** X6.  A run that ends normally changes nothing but the destination:
    every other path leads to what it led to before. *)
Theorem build_touches_only_destination w src dst fmt w' n lo hi p :
  Builder.xyz_to_mbtiles w src dst fmt = Builder.Done w' n lo hi ->
  p <> dst ->
  lookup w' p = lookup w p.
Proof.
  intros Hrun Hp.
  destruct (Rerun.done_conditions _ _ _ _ _ _ _ _ Hrun) as [D N].
  rewrite (Rerun.run_shape _ _ _ fmt D N) in Hrun.
  destruct (Builder.walk (source_entries w src)); [| discriminate].
  injection Hrun as <- _ _ _. apply Rerun.lookup_write_other.
  destruct (str_eqb dst p) eqn:E; [| reflexivity].
  apply Text.str_eqb_eq in E. congruence.
Qed.

Lemma build_touches_only_destination_witness :
  lookup (Sample.built Sample2.world_rebuild (lit "png")) (lit "notes.txt")
  = lookup Sample2.world_rebuild (lit "notes.txt").
Proof.
  apply (build_touches_only_destination Sample2.world_rebuild Sample.src
           Sample.dst (lit "png") _ 3 1 3).
  - vm_compute. reflexivity.
  - intro H. vm_compute in H. discriminate H.
Defined.

(** X7.  The create is destructive: what the destination held before the
    run has no influence on the result.  Two runs over the same source
    listing, with the same destination name and format, leave the same
    container and print the same summary. *)
Theorem destination_content_ignored w1 w2 src dst fmt w1' w2' n1 lo1 hi1
        n2 lo2 hi2 :
  source_entries w1 src = source_entries w2 src ->
  Builder.xyz_to_mbtiles w1 src dst fmt = Builder.Done w1' n1 lo1 hi1 ->
  Builder.xyz_to_mbtiles w2 src dst fmt = Builder.Done w2' n2 lo2 hi2 ->
  container_at w1' dst = container_at w2' dst
  /\ (n1, lo1, hi1) = (n2, lo2, hi2).
Proof.
  intros S H1 H2.
  apply Run.done_inv in H1 as (st1 & W1 & C1 & -> & -> & ->).
  apply Run.done_inv in H2 as (st2 & W2 & C2 & -> & -> & ->).
  rewrite S, W2 in W1. injection W1 as <-.
  rewrite C1, C2. split; reflexivity.
Qed.

Lemma destination_content_ignored_witness :
  container_at (Sample.built Sample2.world_rebuild (lit "png")) Sample.dst
  = container_at
      (Sample.built (remove Sample2.world_rebuild Sample.dst) (lit "png"))
      Sample.dst
  /\ (3, 1, 3) = (3, 1, 3).
Proof.
  apply (destination_content_ignored Sample2.world_rebuild
           (remove Sample2.world_rebuild Sample.dst) Sample.src Sample.dst
           (lit "png")); vm_compute; reflexivity.
Defined.

(** X8.  Running the builder again on the world a run ended in changes
    nothing: the second run ends normally, in the same world and with the
    same summary. *)
Theorem rebuild_is_idempotent w src dst fmt w' n lo hi :
  Builder.xyz_to_mbtiles w src dst fmt = Builder.Done w' n lo hi ->
  Builder.xyz_to_mbtiles w' src dst fmt = Builder.Done w' n lo hi.
Proof.
  intros Hrun.
  destruct (Rerun.done_conditions _ _ _ _ _ _ _ _ Hrun) as [D N].
  assert (Ne : str_eqb dst src = false).
  { destruct (str_eqb dst src) eqn:E; [| reflexivity].
    apply Text.str_eqb_eq in E. subst dst. unfold os_path_isdir in D.
    destruct (lookup w src) as [[[c | es] | db] |]; try discriminate.
    now elim (N es). }
  rewrite (Rerun.run_shape _ _ _ fmt D N) in Hrun.
  destruct (Builder.walk (source_entries w src)) as [st |] eqn:W;
    [| discriminate].
  injection Hrun as <- <- <- <-.
  assert (L : forall e, lookup (write w dst e) src = lookup w src)
    by (intro e; now apply Rerun.lookup_write_other).
  rewrite Rerun.run_shape.
  - unfold source_entries at 1. rewrite L. fold (source_entries w src).
    rewrite W. unfold write at 1. now rewrite Rerun.remove_write.
  - unfold os_path_isdir. now rewrite L.
  - intros es. rewrite Run.lookup_write. discriminate.
Qed.

Lemma rebuild_is_idempotent_witness :
  Builder.xyz_to_mbtiles (Sample.built Sample2.world_rebuild (lit "jpeg"))
                         Sample.src Sample.dst (lit "jpeg")
  = Builder.Done (Sample.built Sample2.world_rebuild (lit "jpeg")) 3 1 3.
Proof.
  apply (rebuild_is_idempotent Sample2.world_rebuild).
  vm_compute. reflexivity.
Defined.

Lemma stored_rows_aux w src dst fmt w' n lo hi :
  Builder.xyz_to_mbtiles w src dst fmt = Builder.Done w' n lo hi ->
  exists db tbl,
    container_at w' dst = Some db /\ tiles db = Some tbl
    /\ forall t, In t tbl ->
         exists d, In d (drafts (source_entries w src))
           /\ zoom_level t = d_zoom d /\ tile_column t = d_column d
           /\ tile_row t = 2 ^ d_zoom d - 1 - d_row d
           /\ d_source d = File (tile_data t).
Proof.
  intros Hrun. apply Run.done_ingest in Hrun as (st & Hin & Hc).
  eexists. exists (Builder.table st). split; [exact Hc |].
  split; [reflexivity |]. intros t Ht.
  destruct (Walk.ingest_rows _ _ _ _ Hin Ht) as [[] | (d & Hd & Td)].
  exists d. split; [exact Hd |].
  destruct (Ingest.tile_of_ok _ _ Td) as (P & Ez & Ex & Er & Es).
  rewrite Z.shiftl_1_l in Er. auto.
Qed.

(** X9.  Every row of the finished relation is a tile file of the source:
    its zoom and column are those of the file, its row is the flipped row,
    its blob the content of the file. *)
Theorem stored_rows_are_tile_files w src dst fmt w' n lo hi :
  Builder.xyz_to_mbtiles w src dst fmt = Builder.Done w' n lo hi ->
  exists db tbl,
    container_at w' dst = Some db /\ tiles db = Some tbl
    /\ forall t, In t tbl ->
         exists d, In d (drafts (source_entries w src))
           /\ zoom_level t = d_zoom d /\ tile_column t = d_column d
           /\ tile_row t = 2 ^ d_zoom d - 1 - d_row d
           /\ d_source d = File (tile_data t).
Proof. apply stored_rows_aux. Qed.

Lemma stored_rows_are_tile_files_witness :
  exists db tbl,
    container_at (Sample.built Sample.world_a (lit "png")) Sample.dst = Some db
    /\ tiles db = Some tbl
    /\ forall t, In t tbl ->
         exists d, In d (drafts (source_entries Sample.world_a Sample.src))
           /\ zoom_level t = d_zoom d /\ tile_column t = d_column d
           /\ tile_row t = 2 ^ d_zoom d - 1 - d_row d
           /\ d_source d = File (tile_data t).
Proof.
  apply (stored_rows_are_tile_files Sample.world_a Sample.src Sample.dst
           (lit "png") _ 1 0 0).
  vm_compute. reflexivity.
Defined.

(** X10.  The zoom range written to the metadata always covers the
    stored tiles: minzoom and maxzoom are the decimal texts of two numbers
    between which the zoom of every row lies, also when numbered entries
    without tiles or zooms from 99 up make the range wider than needed. *)
Theorem zoom_range_covers_tiles w src dst fmt w' n lo hi :
  Builder.xyz_to_mbtiles w src dst fmt = Builder.Done w' n lo hi ->
  exists db rows tbl a b,
    container_at w' dst = Some db
    /\ metadata db = Some rows /\ tiles db = Some tbl
    /\ value_of (lit "minzoom") rows = Some (str_of_int a)
    /\ value_of (lit "maxzoom") rows = Some (str_of_int b)
    /\ forall t, In t tbl -> a <= zoom_level t <= b.
Proof.
  intros Hrun. apply Run.done_ingest in Hrun as (st & Hin & Hc).
  destruct (Ingest.ingest_range _ _ _ Hin) as [Rmin Rmax].
  set (names := zoom_names (source_entries w src)) in *.
  eexists. eexists. exists (Builder.table st).
  exists (if fold_left Z.min names 99 =? 99 then 0
          else fold_left Z.min names 99),
         (if fold_left Z.max names (-1) =? -1 then 0
          else fold_left Z.max names (-1)).
  split; [exact Hc |]. split; [reflexivity |]. split; [reflexivity |].
  unfold Builder.metadata_rows, widen. cbn [Builder.z_min Builder.z_max].
  rewrite Rmin, Rmax. cbn [Builder.initial_state Builder.z_min Builder.z_max].
  split; [reflexivity |]. split; [reflexivity |].
  intros t Ht.
  destruct (Walk.ingest_rows _ _ _ _ Hin Ht) as [[] | (d & Hd & Td)].
  destruct (Ingest.tile_of_ok _ _ Td) as (P & Ez & _).
  pose proof (Range.drafts_zoom_names _ _ Hd) as Hn. fold names in Hn.
  destruct (Range.fold_min_spec names 99) as (_ & A & _).
  destruct (Range.fold_max_spec names (-1)) as (_ & B & _).
  specialize (A _ Hn). specialize (B _ Hn). rewrite Ez.
  destruct (Z.eqb_spec (fold_left Z.min names 99) 99),
    (Z.eqb_spec (fold_left Z.max names (-1)) (-1)); lia.
Qed.

Lemma zoom_range_covers_tiles_witness :
  exists db rows tbl a b,
    container_at (Sample.built Sample.world_zoom_100 (lit "png")) Sample.dst
    = Some db
    /\ metadata db = Some rows /\ tiles db = Some tbl
    /\ value_of (lit "minzoom") rows = Some (str_of_int a)
    /\ value_of (lit "maxzoom") rows = Some (str_of_int b)
    /\ forall t, In t tbl -> a <= zoom_level t <= b.
Proof.
  apply (zoom_range_covers_tiles Sample.world_zoom_100 Sample.src Sample.dst
           (lit "png") _ 1 99 100).
  vm_compute. reflexivity.
Defined.

(** * Further properties of the server *)

Module Routing.

Import Server Text.

Lemma take_until_app stop u v :
  forallb (fun a => negb (stop a)) u = true ->
  take_until stop (u ++ v) = u ++ take_until stop v.
Proof.
  induction u as [| a u IH]; [reflexivity |]. simpl. intros H.
  apply andb_true_iff in H as [H1 H2]. apply negb_true_iff in H1.
  now rewrite H1, IH.
Qed.

Lemma take_until_skip stop x q :
  stop x = false -> take_until stop (x :: q) = x :: take_until stop q.
Proof. intros H. cbn [take_until]. now rewrite H. Qed.

Lemma take_until_cut c u q :
  lacks c u = true -> take_until (is_char c) (u ++ c :: q) = u.
Proof.
  intros H. rewrite take_until_app by exact H.
  cbn [take_until]. unfold is_char. rewrite Ascii.eqb_refl. apply app_nil_r.
Qed.

Lemma last_lacks c s : forall x d,
  lacks c s = true -> x <> c -> last (x :: s) d <> c.
Proof.
  induction s as [| a s IH]; intros x d L N; [exact N |].
  rewrite lacks_cons in L. apply andb_true_iff in L as [L1 L2].
  change (last (x :: a :: s) d) with (last (a :: s) d).
  apply IH; [exact L2 |]. apply negb_true_iff in L1.
  intro E. subst a. now rewrite Ascii.eqb_refl in L1.
Qed.

Lemma plain_lacks s :
  plain s = true ->
  lacks "/"%char s = true /\ lacks "?"%char s = true
  /\ lacks "#"%char s = true /\ lacks ";"%char s = true.
Proof.
  unfold plain. rewrite !andb_true_iff. tauto.
Qed.

Lemma urlparse_single_slash h s :
  Ascii.eqb h "/"%char = false ->
  urlparse_path ("/"%char :: h :: s)
  = split_params (take_until (is_char "?"%char)
                    (take_until (is_char "#"%char) ("/"%char :: h :: s))).
Proof.
  intros N. unfold urlparse_path, is_char. cbv beta iota zeta.
  now rewrite N, andb_false_r.
Qed.

Section Target.

Variables a b c rest : str.
Hypothesis Ha : plain a = true.
Hypothesis Na : a <> [].
Hypothesis Hb : plain b = true.
Hypothesis Hc : plain c = true.
Hypothesis Hr : plain rest = true.

Lemma target_lacks x :
  Ascii.eqb "/"%char x = false -> Ascii.eqb "."%char x = false ->
  lacks x a = true -> lacks x b = true -> lacks x c = true ->
  lacks x rest = true ->
  lacks x (tile_target a b c rest) = true.
Proof.
  intros S D La Lb Lc Lr. unfold tile_target.
  repeat (rewrite lacks_cons || rewrite lacks_app).
  now rewrite S, D, La, Lb, Lc, Lr.
Qed.

Lemma target_head :
  exists h t, a = h :: t /\ Ascii.eqb h "/"%char = false.
Proof.
  destruct a as [| h t] eqn:E; [congruence |]. exists h, t.
  split; [reflexivity |].
  destruct (plain_lacks _ Ha) as (L & _). rewrite lacks_cons in L.
  apply andb_true_iff in L as [L _]. now apply negb_true_iff.
Qed.

Lemma target_shape :
  exists h s, tile_target a b c rest = "/"%char :: h :: s
              /\ Ascii.eqb h "/"%char = false.
Proof.
  destruct target_head as (h & t & E & N). unfold tile_target. rewrite E.
  cbn [app]. eauto.
Qed.

(** The target, alone or followed by a query or a fragment, has itself
    for a path. *)
Lemma urlparse_target :
  urlparse_path (tile_target a b c rest) = tile_target a b c rest
  /\ (forall q, urlparse_path (tile_target a b c rest ++ "?"%char :: q)
                = tile_target a b c rest)
  /\ (forall q, urlparse_path (tile_target a b c rest ++ "#"%char :: q)
                = tile_target a b c rest).
Proof.
  destruct (plain_lacks _ Ha) as (_ & A2 & A3 & A4).
  destruct (plain_lacks _ Hb) as (_ & B2 & B3 & B4).
  destruct (plain_lacks _ Hc) as (_ & C2 & C3 & C4).
  destruct (plain_lacks _ Hr) as (_ & R2 & R3 & R4).
  assert (L1 : lacks "#"%char (tile_target a b c rest) = true)
    by (apply target_lacks; auto).
  assert (L2 : lacks "?"%char (tile_target a b c rest) = true)
    by (apply target_lacks; auto).
  assert (L3 : lacks ";"%char (tile_target a b c rest) = true)
    by (apply target_lacks; auto).
  destruct target_shape as (h & s & T & N).
  split; [| split].
  - rewrite T at 1. rewrite urlparse_single_slash by exact N. rewrite <- T.
    rewrite (take_until_id (is_char "#"%char)) by exact L1.
    rewrite (take_until_id (is_char "?"%char)) by exact L2.
    now apply split_params_id.
  - intros q. rewrite T at 1. cbn [app].
    rewrite urlparse_single_slash by exact N.
    change ("/"%char :: h :: s ++ "?"%char :: q)
      with (("/"%char :: h :: s) ++ "?"%char :: q).
    rewrite <- T.
    rewrite (take_until_app (is_char "#"%char)) by exact L1.
    rewrite (take_until_skip (is_char "#"%char) "?"%char) by reflexivity.
    rewrite (take_until_cut "?"%char) by exact L2.
    now apply split_params_id.
  - intros q. rewrite T at 1. cbn [app].
    rewrite urlparse_single_slash by exact N.
    change ("/"%char :: h :: s ++ "#"%char :: q)
      with (("/"%char :: h :: s) ++ "#"%char :: q).
    rewrite <- T.
    rewrite (take_until_cut "#"%char) by exact L1.
    rewrite (take_until_id (is_char "?"%char)) by exact L2.
    now apply split_params_id.
Qed.

Lemma strip_target :
  strip "/"%char (tile_target a b c rest)
  = a ++ "/"%char :: b ++ "/"%char :: c ++ "."%char :: rest.
Proof.
  destruct target_head as (h & t & E & N).
  destruct (plain_lacks _ Hr) as (R1 & _).
  unfold strip, tile_target. rewrite E. cbn [app lstrip].
  rewrite Ascii.eqb_refl, N. apply rstrip_id.
  rewrite !last_cons_app_cons.
  apply last_lacks; [exact R1 | discriminate].
Qed.

Lemma split_target :
  split "/"%char (a ++ "/"%char :: b ++ "/"%char :: c ++ "."%char :: rest)
  = [a; b; c ++ "."%char :: rest].
Proof.
  destruct (plain_lacks _ Ha) as (A1 & _).
  destruct (plain_lacks _ Hb) as (B1 & _).
  destruct (plain_lacks _ Hc) as (C1 & _).
  destruct (plain_lacks _ Hr) as (R1 & _).
  rewrite !split_app by assumption.
  rewrite split_lacks; [reflexivity |].
  change ("."%char :: rest) with (["."%char] ++ rest).
  now rewrite !lacks_app, C1, R1.
Qed.

Hypothesis Hdot : lacks "."%char c = true.
Hypothesis Hend : endswith_any (c ++ "."%char :: rest) tile_suffixes = true.

(** Where a request with this path ends up. *)
Lemma do_GET_path w path target :
  urlparse_path target = tile_target a b c rest ->
  do_GET w path target
  = match bind (int a) (fun z =>
          bind (int b) (fun x =>
          bind (int c) (fun y => Ok (z, x, y)))) with
    | Ok (z, x, y) => answer_tile w path z x y
    | Raise _ =>
        (Ok (send_error 400 (lit "Invalid tile coordinates")), w)
    end.
Proof.
  intros U. unfold do_GET. rewrite U, strip_target, split_target, Hend.
  assert (P : parse_coordinates a b (c ++ "."%char :: rest)
              = bind (int a) (fun z =>
                  bind (int b) (fun x =>
                  bind (int c) (fun y => Ok (z, x, y))))).
  { unfold parse_coordinates. rewrite split_app by exact Hdot. reflexivity. }
  destruct (parse_coordinates a b (c ++ "."%char :: rest))
    as [[[z x] y] | e] eqn:E; rewrite <- P.
  - reflexivity.
  - apply Serve.parse_coordinates_raises in E. now subst e.
Qed.

End Target.

Lemma plain_str_of_int n : plain (str_of_int n) = true.
Proof.
  unfold plain. now rewrite !coord_lacks by reflexivity.
Qed.

Lemma plain_extension ext :
  In ext tile_extensions -> plain ext = true.
Proof. intros H. Route.each_extension H; reflexivity. Qed.

Lemma connect_world w path :
  snd (connect w path) = w
  \/ (lookup w path = None
      /\ snd (connect w path) = write w path (Plain (File []))).
Proof.
  unfold connect.
  destruct (lookup w path) as [[[[| c0 c] | es] | d] |]; cbn [snd]; auto.
Qed.

Lemma get_tile_world w path z x y :
  snd (get_tile w path z x y) = snd (connect w path).
Proof.
  unfold get_tile, get_tile_try. destruct (connect w path) as [conn w'].
  cbn [snd]. now destruct (bind conn _).
Qed.

Lemma get_metadata_world w path :
  snd (get_metadata w path) = snd (connect w path).
Proof.
  unfold get_metadata, get_metadata_try.
  destruct (connect w path) as [conn w']. cbn [snd].
  now destruct (bind conn _).
Qed.

(** The world a request leaves: the one it found, or the one in which
    [connect] has created the missing file. *)
Lemma do_GET_world w path target :
  snd (do_GET w path target) = w
  \/ snd (do_GET w path target) = snd (connect w path).
Proof.
  unfold do_GET.
  assert (O : snd (if str_eqb target (lit "/metadata")
                   then let (metadata, w') := get_metadata w path in
                        (Ok (Sent {| status := 200;
                                     headers := metadata_headers;
                                     body := Json metadata |}), w')
                   else (Ok (Static target), w)) = w
              \/ snd (if str_eqb target (lit "/metadata")
                      then let (metadata, w') := get_metadata w path in
                           (Ok (Sent {| status := 200;
                                        headers := metadata_headers;
                                        body := Json metadata |}), w')
                      else (Ok (Static target), w)) = snd (connect w path)).
  { destruct (str_eqb target (lit "/metadata")); [| now left].
    right. rewrite <- get_metadata_world.
    now destruct (get_metadata w path). }
  destruct (split "/"%char (strip "/"%char (urlparse_path target)))
    as [| p0 [| p1 [| p2 [| p3 r]]]]; try exact O.
  destruct (endswith_any p2 tile_suffixes); [| exact O].
  destruct (parse_coordinates p0 p1 p2) as [[[z x] y] | []];
    try (now left).
  right. rewrite <- (get_tile_world w path z x y).
  destruct (get_tile w path z x y) as [t w']. now destruct (truthy t).
Qed.

Lemma os_path_exists_lookup w p :
  os_path_exists w p = true -> lookup w p <> None.
Proof. unfold os_path_exists. destruct (lookup w p); congruence. Qed.

Lemma do_GET_existing w path target :
  lookup w path <> None -> snd (do_GET w path target) = w.
Proof.
  intros E. destruct (do_GET_world w path target) as [H | H]; [exact H |].
  rewrite H. destruct (connect_world w path) as [C | [C _]];
    [exact C | contradiction].
Qed.

End Routing.



(** X12.  Only the text before the first dot of the last segment is read
    as the row: [/z/x/y.anything.ext] is answered like [/z/x/y.ext]. *)
Theorem text_after_first_dot_ignored w path z x y junk ext :
  plain junk = true ->
  In ext Server.tile_extensions ->
  Server.do_GET w path
    (tile_target (str_of_int z) (str_of_int x) (str_of_int y)
                 (junk ++ "."%char :: ext))
  = Server.do_GET w path (Server.tile_url z x y ext).
Proof.
  intros Hj He. rewrite Route.do_GET_tile_url by exact He.
  assert (Hr : plain (junk ++ "."%char :: ext) = true).
  { pose proof (Routing.plain_extension _ He) as Pe.
    apply Routing.plain_lacks in Hj as (J1 & J2 & J3 & J4).
    apply Routing.plain_lacks in Pe as (E1 & E2 & E3 & E4).
    unfold plain.
    change ("."%char :: ext) with (["."%char] ++ ext).
    rewrite !Text.lacks_app, J1, J2, J3, J4, E1, E2, E3, E4. reflexivity. }
  assert (Hend : endswith_any
                   (str_of_int y ++ "."%char :: junk ++ "."%char :: ext)
                   Server.tile_suffixes = true).
  { change (str_of_int y ++ "."%char :: junk ++ "."%char :: ext)
      with (str_of_int y ++ ("."%char :: junk) ++ "."%char :: ext).
    rewrite app_assoc. now apply Route.endswith_tile_name. }
  pose proof (Routing.plain_str_of_int z) as Pz.
  pose proof (Routing.plain_str_of_int x) as Px.
  pose proof (Routing.plain_str_of_int y) as Py.
  pose proof (Decimal.str_of_int_nonempty z) as Nz.
  assert (Hdot : lacks "."%char (str_of_int y) = true)
    by now apply Text.coord_lacks.
  destruct (Routing.urlparse_target _ _ _ _ Pz Nz Px Py Hr) as (U & _).
  rewrite (Routing.do_GET_path _ _ _ _ Pz Nz Px Py Hr Hdot Hend w path _ U).
  now rewrite !Decimal.int_str.
Qed.

Lemma text_after_first_dot_ignored_witness :
  Server.do_GET (Sample.built Sample.world_a (lit "png")) Sample.dst
    (tile_target (str_of_int 0) (str_of_int 0) (str_of_int 0)
                 (lit "v2.tar" ++ "."%char :: lit "png"))
  = Server.do_GET (Sample.built Sample.world_a (lit "png")) Sample.dst
                  (Server.tile_url 0 0 0 (lit "png")).
Proof.
  apply (text_after_first_dot_ignored _ _ 0 0 0 (lit "v2.tar") (lit "png")).
  - reflexivity.
  - vm_compute. tauto.
Defined.

(** X13.  A query string or a fragment after the path of a tile request
    changes nothing in the answer. *)
Theorem query_and_fragment_ignored w path z x y ext q :
  In ext Server.tile_extensions ->
  Server.do_GET w path (Server.tile_url z x y ext ++ "?"%char :: q)
  = Server.do_GET w path (Server.tile_url z x y ext)
  /\ Server.do_GET w path (Server.tile_url z x y ext ++ "#"%char :: q)
     = Server.do_GET w path (Server.tile_url z x y ext).
Proof.
  intros He.
  pose proof (Routing.plain_str_of_int z) as Pz.
  pose proof (Routing.plain_str_of_int x) as Px.
  pose proof (Routing.plain_str_of_int y) as Py.
  pose proof (Routing.plain_extension _ He) as Pe.
  pose proof (Decimal.str_of_int_nonempty z) as Nz.
  assert (Hdot : lacks "."%char (str_of_int y) = true)
    by now apply Text.coord_lacks.
  pose proof (Route.endswith_tile_name (str_of_int y) ext He) as Hend.
  destruct (Routing.urlparse_target _ _ _ _ Pz Nz Px Py Pe) as (U0 & U1 & U2).
  change (Server.tile_url z x y ext)
    with (tile_target (str_of_int z) (str_of_int x) (str_of_int y) ext).
  rewrite (Routing.do_GET_path _ _ _ _ Pz Nz Px Py Pe Hdot Hend w path _ U0).
  rewrite (Routing.do_GET_path _ _ _ _ Pz Nz Px Py Pe Hdot Hend w path _
             (U1 q)).
  rewrite (Routing.do_GET_path _ _ _ _ Pz Nz Px Py Pe Hdot Hend w path _
             (U2 q)).
  split; reflexivity.
Qed.

Lemma query_and_fragment_ignored_witness :
  Server.do_GET (Sample.built Sample.world_a (lit "png")) Sample.dst
                (Server.tile_url 0 0 0 (lit "png") ++ "?"%char :: lit "v=7")
  = Server.do_GET (Sample.built Sample.world_a (lit "png")) Sample.dst
                  (Server.tile_url 0 0 0 (lit "png")).
Proof.
  refine (proj1 (query_and_fragment_ignored _ _ 0 0 0 (lit "png")
                   (lit "v=7") _)).
  vm_compute. tauto.
Defined.

(** X14.  The metadata route is an exact match on the request target:
    [/metadata] is answered from [get_metadata], while [/metadata?...] and
    [/metadata/] go to the static file handler, and the store is not
    opened for them. *)
Theorem metadata_route_is_exact w path q :
  Server.do_GET w path (lit "/metadata")
  = (Ok (Server.Sent {| Server.status := 200;
                        Server.headers := Server.metadata_headers;
                        Server.body :=
                          Server.Json (fst (Server.get_metadata w path)) |}),
     snd (Server.get_metadata w path))
  /\ Server.do_GET w path (lit "/metadata" ++ "?"%char :: q)
     = (Ok (Server.Static (lit "/metadata" ++ "?"%char :: q)), w)
  /\ Server.do_GET w path (lit "/metadata/")
     = (Ok (Server.Static (lit "/metadata/")), w).
Proof.
  split; [| split].
  - rewrite Serve.do_GET_metadata. now destruct (Server.get_metadata w path).
  - reflexivity.
  - reflexivity.
Qed.

(** X15.  Serving never writes to a store that exists: a request leaves
    the world as it found it.  Only when nothing is at the path of the
    store can a request change the world, by creating an empty file
    there; every other path is left alone in all cases. *)
Theorem request_leaves_the_store w path target :
  (lookup w path <> None -> snd (Server.do_GET w path target) = w)
  /\ (snd (Server.do_GET w path target) = w
      \/ (lookup w path = None
          /\ snd (Server.do_GET w path target)
             = write w path (Plain (File []))))
  /\ (forall p, p <> path ->
        lookup (snd (Server.do_GET w path target)) p = lookup w p).
Proof.
  assert (C : snd (Server.do_GET w path target) = w
              \/ (lookup w path = None
                  /\ snd (Server.do_GET w path target)
                     = write w path (Plain (File [])))).
  { destruct (Routing.do_GET_world w path target) as [H | H]; [now left |].
    rewrite H. apply Routing.connect_world. }
  split; [apply Routing.do_GET_existing |]. split; [exact C |].
  intros p Hp. destruct C as [-> | [_ ->]]; [reflexivity |].
  apply Rerun.lookup_write_other.
  destruct (str_eqb path p) eqn:E; [| reflexivity].
  apply Text.str_eqb_eq in E. congruence.
Qed.

(** X16.  [get_tile] returns nothing but stored bytes: when it returns
    a blob, the zoom is not negative and the blob is that of a row stored
    under zoom, column and flipped row; the world is unchanged. *)
Theorem get_tile_sound w path z x y blob w' :
  Server.get_tile w path z x y = (Some blob, w') ->
  w' = w /\ 0 <= z
  /\ exists db tbl t,
      container_at w path = Some db /\ tiles db = Some tbl /\ In t tbl
      /\ zoom_level t = z /\ tile_column t = x
      /\ tile_row t = 2 ^ z - 1 - y /\ tile_data t = blob.
Proof.
  unfold Server.get_tile, Server.get_tile_try, Server.connect, container_at.
  destruct (lookup w path) as [[[[| c0 c] | es] | d] |]; cbn [bind];
    try discriminate;
    try (unfold Server.tms_y, shl1; destruct (z <? 0); cbn [bind];
         discriminate).
  unfold Server.tms_y, shl1. destruct (z <? 0) eqn:Ez; [discriminate |].
  apply Z.ltb_ge in Ez. cbn [bind]. unfold Server.execute_select_tile.
  destruct (tiles d) as [tbl |] eqn:T; [| discriminate].
  unfold select_tile_data.
  destruct (int64 z && int64 x && int64 (Z.shiftl 1 z - 1 - y));
    [| discriminate].
  destruct (find (same_key z x (Z.shiftl 1 z - 1 - y)) tbl) as [t |] eqn:F;
    [| discriminate].
  cbn [option_map]. intros [= <- <-].
  apply find_some in F as [Hin K]. apply Table.same_key_spec in K.
  unfold key_of in K. injection K as K1 K2 K3. rewrite Z.shiftl_1_l in K3.
  split; [reflexivity |]. split; [exact Ez |].
  exists d, tbl, t. auto 10.
Qed.

Lemma get_tile_sound_witness :
  Sample.built Sample.world_a (lit "png")
  = Sample.built Sample.world_a (lit "png")
  /\ 0 <= 0
  /\ exists db tbl t,
      container_at (Sample.built Sample.world_a (lit "png")) Sample.dst
      = Some db /\ tiles db = Some tbl /\ In t tbl
      /\ zoom_level t = 0 /\ tile_column t = 0
      /\ tile_row t = 2 ^ 0 - 1 - 0 /\ tile_data t = Sample.b "PNGDATA".
Proof.
  apply (get_tile_sound (Sample.built Sample.world_a (lit "png")) Sample.dst
           0 0 0 (Sample.b "PNGDATA")).
  vm_compute. reflexivity.
Defined.

(** X17.  Coordinates the store cannot hold are answered 404, whatever
    the store contains: a negative zoom, whose shift raises, and a zoom,
    column or flipped row outside the signed 64-bit range; the numbers of
    the request being within the digit limit of [int()]. *)
Theorem unservable_coordinates_404 w path z x y ext :
  z < 0 \/ int64 z && int64 x && int64 (Z.shiftl 1 z - 1 - y) = false ->
  within_digit_limit z -> within_digit_limit x -> within_digit_limit y ->
  In ext Server.tile_extensions ->
  fst (Server.do_GET w path (Server.tile_url z x y ext))
  = Ok (Server.send_error 404 (lit "Tile not found")).
Proof.
  intros H _ _ _ He. rewrite Route.do_GET_tile_url by exact He.
  assert (G : fst (Server.get_tile w path z x y) = None).
  { unfold Server.get_tile, Server.get_tile_try.
    destruct (Server.connect w path) as [[[d |] | e] w1]; cbn [bind];
      try reflexivity;
      unfold Server.tms_y, shl1;
      destruct (z <? 0) eqn:Ez; cbn [bind]; try reflexivity.
    - destruct H as [H | H]; [apply Z.ltb_ge in Ez; lia |].
      unfold Server.execute_select_tile.
      destruct (tiles d); [| reflexivity].
      unfold select_tile_data. now rewrite H. }
  destruct (Server.get_tile w path z x y) as [t w1]. cbn [fst] in G.
  now subst t.
Qed.

Lemma unservable_coordinates_404_witness :
  fst (Server.do_GET (Sample.built Sample.world_a (lit "png")) Sample.dst
                     (Server.tile_url (-1) 0 0 (lit "png")))
  = Ok (Server.send_error 404 (lit "Tile not found"))
  /\ fst (Server.do_GET (Sample.built Sample.world_a (lit "png")) Sample.dst
                        (Server.tile_url 0 (2 ^ 63) 0 (lit "png")))
     = Ok (Server.send_error 404 (lit "Tile not found")).
Proof.
  split.
  - apply (unservable_coordinates_404 _ _ (-1) 0 0 (lit "png"));
      try (apply Nat.leb_le; vm_compute; reflexivity).
    + left. lia.
    + vm_compute. tauto.
  - apply (unservable_coordinates_404 _ _ 0 (2 ^ 63) 0 (lit "png"));
      try (apply Nat.leb_le; vm_compute; reflexivity).
    + right. reflexivity.
    + vm_compute. tauto.
Defined.

(** X18.  What the builder wrote is what the server reports: after a run
    that ends normally, the request for [/metadata] against the
    destination is answered 200 with the eight names and values of the
    run, the format in lower case. *)
Theorem metadata_round_trip w src dst fmt w' n lo hi :
  Builder.xyz_to_mbtiles w src dst fmt = Builder.Done w' n lo hi ->
  Server.do_GET w' dst (lit "/metadata")
  = (Ok (Server.Sent
           {| Server.status := 200;
              Server.headers := Server.metadata_headers;
              Server.body :=
                Server.Json
                  [ (lit "name", basename dst);
                    (lit "type", lit "baselayer");
                    (lit "version", lit "1.0");
                    (lit "description", lit "Packed from XYZ folder");
                    (lit "format", lower fmt);
                    (lit "minzoom", str_of_int (if lo =? 99 then 0 else lo));
                    (lit "maxzoom", str_of_int (if hi =? -1 then 0 else hi));
                    (lit "attribution", lit "") ] |}), w').
Proof.
  intros Hrun. apply Run.done_inv in Hrun as (st & _ & C & _ & -> & ->).
  apply Serve.container_lookup in C.
  rewrite Serve.do_GET_metadata.
  unfold Server.get_metadata, Server.get_metadata_try, Server.connect.
  rewrite C. reflexivity.
Qed.

Lemma metadata_round_trip_witness :
  Server.do_GET (Sample.built Sample.world_jpg (lit "jpg")) Sample.dst
                (lit "/metadata")
  = (Ok (Server.Sent
           {| Server.status := 200;
              Server.headers := Server.metadata_headers;
              Server.body :=
                Server.Json
                  [ (lit "name", basename Sample.dst);
                    (lit "type", lit "baselayer");
                    (lit "version", lit "1.0");
                    (lit "description", lit "Packed from XYZ folder");
                    (lit "format", lower (lit "jpg"));
                    (lit "minzoom", str_of_int (if 0 =? 99 then 0 else 0));
                    (lit "maxzoom", str_of_int (if 0 =? -1 then 0 else 0));
                    (lit "attribution", lit "") ] |}),
     Sample.built Sample.world_jpg (lit "jpg")).
Proof.
  apply (metadata_round_trip Sample.world_jpg Sample.src Sample.dst
           (lit "jpg") _ 1 0 0).
  vm_compute. reflexivity.
Defined.

(** X19.  [main] listens, on port 8081, only when the container is there;
    and a sequence of requests to a server that has started leaves the
    world untouched, each request being handled as it would be if it were
    the first. *)
Theorem started_server_never_writes w script_dir :
  (Httpd.main w script_dir = Httpd.NotStarted
   <-> lookup w (Httpd.mbtiles_file script_dir) = None)
  /\ forall port path,
      Httpd.main w script_dir = Httpd.Listening port path ->
      port = 8081 /\ path = Httpd.mbtiles_file script_dir
      /\ forall targets,
          snd (Httpd.serve w path targets) = w
          /\ fst (Httpd.serve w path targets)
             = map (fun t => fst (Server.do_GET w path t)) targets.
Proof.
  unfold Httpd.main, os_path_exists. split.
  - destruct (lookup w (Httpd.mbtiles_file script_dir));
      split; congruence.
  - intros port path H.
    destruct (lookup w (Httpd.mbtiles_file script_dir)) as [e |] eqn:L;
      [| discriminate].
    injection H as <- <-. split; [reflexivity |]. split; [reflexivity |].
    assert (E : lookup w (Httpd.mbtiles_file script_dir) <> None)
      by congruence.
    induction targets as [| t ts IH].
    + cbn. split; reflexivity.
    + cbn [Httpd.serve map].
      pose proof (Routing.do_GET_existing w _ t E) as W.
      destruct (Server.do_GET w (Httpd.mbtiles_file script_dir) t)
        as [r w1].
      cbn [snd fst] in W |- *. subst w1.
      destruct (Httpd.serve w (Httpd.mbtiles_file script_dir) ts)
        as [rs w2].
      cbn [fst snd] in IH |- *. destruct IH as (I1 & I2).
      split; [exact I1 | now rewrite I2].
Qed.

Lemma started_server_never_writes_witness :
  snd (Httpd.serve Sample2.world_served
                   (Httpd.mbtiles_file Sample2.script_dir)
                   [Server.tile_url 0 0 0 (lit "png"); lit "/metadata";
                    lit "/abc/0/0.png"])
  = Sample2.world_served.
Proof.
  destruct (started_server_never_writes Sample2.world_served
              Sample2.script_dir) as [_ S].
  destruct (S 8081 (Httpd.mbtiles_file Sample2.script_dir)) as (_ & _ & T).
  - vm_compute. reflexivity.
  - exact (proj1 (T _)).
Defined.

Module Mapping.

Import Server.

Lemma value_of_dict_set name k v d :
  value_of name (dict_set k v d)
  = if str_eqb k name then Some v else value_of name d.
Proof.
  induction d as [| [k' v'] d IH]; cbn [dict_set value_of].
  - reflexivity.
  - destruct (str_eqb k' k) eqn:E; cbn [value_of].
    + apply Text.str_eqb_eq in E. subst k'.
      now destruct (str_eqb k name).
    + rewrite IH. destruct (str_eqb k' name) eqn:E1; [| reflexivity].
      apply Text.str_eqb_eq in E1. subst k'.
      destruct (str_eqb k name) eqn:E2; [| reflexivity].
      apply Text.str_eqb_eq in E2. subst k.
      now rewrite Text.str_eqb_refl in E.
Qed.

Lemma value_of_app name l1 l2 :
  value_of name (l1 ++ l2)
  = match value_of name l1 with
    | Some v => Some v
    | None => value_of name l2
    end.
Proof.
  induction l1 as [| [k v] l1 IH]; [reflexivity |]. cbn [app value_of].
  now destruct (str_eqb k name).
Qed.

Lemma value_of_fold name rows : forall d,
  value_of name
    (fold_left (fun d kv => dict_set (fst kv) (snd kv) d) rows d)
  = match value_of name (rev rows) with
    | Some v => Some v
    | None => value_of name d
    end.
Proof.
  induction rows as [| [k v] rows IH]; intros d; [reflexivity |].
  cbn [fold_left rev fst snd]. rewrite IH, value_of_app, value_of_dict_set.
  cbn [value_of].
  destruct (value_of name (rev rows)); [reflexivity |].
  now destruct (str_eqb k name).
Qed.

Lemma dict_set_names k v d :
  NoDup (map fst d) -> NoDup (map fst (dict_set k v d)).
Proof.
  induction d as [| [k' v'] d IH]; intros U; cbn [dict_set].
  - cbn. constructor; [intros [] | constructor].
  - cbn [map fst] in U. inversion U as [| ? ? Hn Hd]; subst.
    destruct (str_eqb k' k) eqn:E; [exact U |].
    cbn [map fst]. constructor; [| now apply IH].
    intro Hin. apply Hn. clear - Hin E.
    induction d as [| [k2 v2] d IHd]; cbn [dict_set map fst] in *.
    + destruct Hin as [<- | []]. now rewrite Text.str_eqb_refl in E.
    + destruct (str_eqb k2 k); [exact Hin |].
      cbn [map fst] in Hin. destruct Hin as [H | H]; [now left |].
      right. now apply IHd.
Qed.

Lemma dict_names rows : NoDup (map fst (dict rows)).
Proof.
  unfold dict.
  assert (G : forall d, NoDup (map fst d) ->
                NoDup (map fst (fold_left
                                  (fun d kv => dict_set (fst kv) (snd kv) d)
                                  rows d))).
  { induction rows as [| kv rows IH]; intros d U; [exact U |].
    cbn [fold_left]. now apply IH, dict_set_names. }
  apply G. constructor.
Qed.

End Mapping.

(** X20.  The metadata relation has no unique index; when it holds
    several rows of one name, the mapping [get_metadata] returns gives
    that name once, with the value of the last such row. *)
Theorem metadata_mapping_last_row_wins w path db rows name :
  container_at w path = Some db ->
  metadata db = Some rows ->
  value_of name (fst (Server.get_metadata w path))
  = value_of name (rev rows)
  /\ NoDup (map fst (fst (Server.get_metadata w path))).
Proof.
  intros C M. apply Serve.container_lookup in C.
  unfold Server.get_metadata, Server.get_metadata_try, Server.connect.
  rewrite C. cbn [bind]. unfold Server.execute_select_metadata.
  rewrite M. cbn [bind fst]. split; [| apply Mapping.dict_names].
  unfold Server.dict. rewrite Mapping.value_of_fold.
  now destruct (value_of name (rev rows)).
Qed.

Lemma metadata_mapping_last_row_wins_witness :
  value_of (lit "format")
    (fst (Server.get_metadata
            [(Sample.dst,
              Store {| metadata := Some [(lit "format", lit "png");
                                         (lit "name", lit "demo");
                                         (lit "format", lit "jpg")];
                       tiles := Some [] |})] Sample.dst))
  = value_of (lit "format") (rev [(lit "format", lit "png");
                                  (lit "name", lit "demo");
                                  (lit "format", lit "jpg")])
  /\ NoDup (map fst
       (fst (Server.get_metadata
               [(Sample.dst,
                 Store {| metadata := Some [(lit "format", lit "png");
                                            (lit "name", lit "demo");
                                            (lit "format", lit "jpg")];
                          tiles := Some [] |})] Sample.dst))).
Proof.
  eapply metadata_mapping_last_row_wins; reflexivity.
Defined.

(** X21.  A coordinate for which the source holds no tile file, its
    three numbers being within the digit limit of [int()], is answered
    404 by a server reading the built container, and the container is
    left as it is. *)
Theorem unbuilt_coordinates_404 w src dst fmt w' n lo hi z x y ext :
  Builder.xyz_to_mbtiles w src dst fmt = Builder.Done w' n lo hi ->
  (forall d, In d (drafts (source_entries w src)) ->
     ~ (d_zoom d = z /\ d_column d = x /\ d_row d = y)) ->
  within_digit_limit z -> within_digit_limit x -> within_digit_limit y ->
  In ext Server.tile_extensions ->
  Server.do_GET w' dst (Server.tile_url z x y ext)
  = (Ok (Server.send_error 404 (lit "Tile not found")), w').
Proof.
  intros Hrun Hno _ _ _ He.
  destruct (stored_rows_aux w src dst fmt w' n lo hi Hrun)
    as (db & tbl & C & T & R).
  rewrite Route.do_GET_tile_url by exact He.
  rewrite (Serve.get_tile_absent w' dst z x y); [reflexivity |].
  exists db, tbl. split; [exact C |]. split; [exact T |].
  intros t Ht. apply Table.same_key_false. intro K.
  destruct (R t Ht) as (d & Hd & Ez & Ex & Er & _).
  unfold key_of in K. injection K as K1 K2 K3.
  apply (Hno d Hd). rewrite <- Ez, <- Ex. split; [exact K1 |].
  split; [exact K2 |].
  rewrite Er in K3. rewrite Z.shiftl_1_l, <- Ez, K1 in K3. lia.
Qed.

Lemma unbuilt_coordinates_404_witness :
  Server.do_GET (Sample.built Sample.world_a (lit "png")) Sample.dst
                (Server.tile_url 9 9 9 (lit "png"))
  = (Ok (Server.send_error 404 (lit "Tile not found")),
     Sample.built Sample.world_a (lit "png")).
Proof.
  apply (unbuilt_coordinates_404 Sample.world_a Sample.src Sample.dst
           (lit "png") _ 1 0 0);
    try (apply Nat.leb_le; vm_compute; reflexivity).
  - vm_compute. reflexivity.
  - intros d Hd. vm_compute in Hd. destruct Hd as [<- | []].
    cbn. intros (H & _). discriminate H.
  - vm_compute. tauto.
Defined.

Lemma round_trip_witness :
  Server.do_GET (Sample.built Sample.world_twice (lit "png")) Sample.dst
                (Server.tile_url 2 3 1 (lit "jpeg"))
  = (Ok (Server.Sent {| Server.status := 200;
                        Server.headers := Server.tile_headers;
                        Server.body := Server.Bytes (Sample.b "second") |}),
     Sample.built Sample.world_twice (lit "png")).
Proof.
  apply (round_trip Sample.world_twice Sample.src Sample.dst (lit "png")
           _ 2 2 2
           [ {| d_zoom := 2; d_column := 3; d_row := 1;
                d_source := File (Sample.b "first") |} ]
           {| d_zoom := 2; d_column := 3; d_row := 1;
              d_source := File (Sample.b "second") |}
           [] (Sample.b "second") (lit "jpeg")).
  - vm_compute. reflexivity.
  - vm_compute. reflexivity.
  - intros e [].
  - reflexivity.
  - vm_compute. tauto.
Defined.

Lemma build_succeeds_only_if_witness :
  (forall d, In d (drafts (source_entries Sample.world_a Sample.src)) ->
     exists B, d_source d = File B)
  /\ ~ (exists w' n lo hi,
          Builder.xyz_to_mbtiles Sample2.world_folder_tile Sample.src
                                 Sample.dst (lit "png")
          = Builder.Done w' n lo hi)
  /\ ~ (exists w' n lo hi,
          Builder.xyz_to_mbtiles Sample2.world_wide_column Sample.src
                                 Sample.dst (lit "png")
          = Builder.Done w' n lo hi).
Proof.
  split; [| split].
  - intros d Hd.
    refine (proj1 (proj2 (proj2 (proj2 (build_succeeds_only_if Sample.world_a
             Sample.src Sample.dst (lit "png"))
             (Sample.built Sample.world_a (lit "png")) 1 0 0 _)) d Hd)).
    vm_compute. reflexivity.
  - intros (w' & n & lo & hi & H).
    apply (proj2 (build_succeeds_only_if Sample2.world_folder_tile
                    Sample.src Sample.dst (lit "png"))) in H.
    destruct H as (_ & _ & H).
    destruct (H {| d_zoom := 1; d_column := 0; d_row := 0;
                   d_source := Folder [] |}) as [[B E] _].
    + vm_compute. now left.
    + discriminate E.
  - intros (w' & n & lo & hi & H).
    apply (proj2 (build_succeeds_only_if Sample2.world_wide_column
                    Sample.src Sample.dst (lit "png"))) in H.
    destruct H as (_ & _ & H).
    destruct (H {| d_zoom := 1; d_column := 9223372036854775808; d_row := 0;
                   d_source := File (Sample.b "far") |}) as [_ E].
    + vm_compute. now left.
    + vm_compute in E. discriminate E.
Defined.

Lemma request_leaves_the_store_witness :
  snd (Server.do_GET Sample2.world_served
                     (Httpd.mbtiles_file Sample2.script_dir)
                     (Server.tile_url 0 0 0 (lit "png")))
  = Sample2.world_served.
Proof.
  apply (proj1 (request_leaves_the_store Sample2.world_served
                  (Httpd.mbtiles_file Sample2.script_dir)
                  (Server.tile_url 0 0 0 (lit "png")))).
  vm_compute. discriminate.
Defined.
